(** * The AdminJS browser API client (ApiClient), embedded and verified

    The development follows the TypeScript class [ApiClient]: its request
    builders [resourceAction], [recordAction], [bulkAction] and
    [searchRecords], the CSRF token routine [getToken], and the cookie helpers
    [getCookie] and [setCookie], together with the module-level function
    [checkResponse].

    The TypeScript source is what is embedded; its compiled copy differs by
    further [console.log] calls only.  [getDashboard] is left out: it goes
    through [client.get], whose merging of the options is the transport
    library's own.

    JavaScript values are a small inductive type; objects keep their own
    enumerable properties in enumeration order.  The asynchronous methods are
    straight-line sequences of awaits, so they are written in a state and
    exception monad whose state holds [document.cookie] and the trace of
    observable effects (network calls, cookie writes, console output, alert,
    navigation).  What the browser and the server answer is read from a [Host]
    record. *)

From Stdlib Require Import String Ascii List ZArith NArith Bool Lia.
From Stdlib Require Import DecimalString.
Import ListNotations.

Open Scope string_scope.

(* ================================================================== *)
(** ** Strings *)

(** A JavaScript string is modelled by the bytes of its UTF-8 encoding, so a
    well-formed string only.  [String.concat] of the standard library is
    [Array.prototype.join] on elements that are already strings. *)

Fixpoint starts_with (p s : string) : option string :=
  match p, s with
  | EmptyString, _ => Some s
  | String a p', String b s' => if Ascii.eqb a b then starts_with p' s' else None
  | String _ _, EmptyString => None
  end.

(** The longest prefix without a semicolon: what the capture group of the
    cookie pattern (any run of characters other than a semicolon) takes. *)
Fixpoint until_semicolon (s : string) : string :=
  match s with
  | EmptyString => ""
  | String c r => if Ascii.eqb c ";" then "" else String c (until_semicolon r)
  end.

Definition string_of_Z (n : Z) : string :=
  NilZero.string_of_int (Z.to_int n).

(** The integers that a JavaScript number holds exactly and prints in full,
    digit by digit: those up to [Number.MAX_SAFE_INTEGER] in magnitude.
    Beyond them a number prints its shortest digits, and from [1e21] on in
    exponent form, which [string_of_Z] does not follow. *)
Definition safe_integer (n : Z) : Prop :=
  (Z.abs n <= 9007199254740991)%Z.

(* ------------------------------------------------------------------ *)
(** *** encodeURIComponent and decodeURIComponent *)

Definition hex_digit (n : N) : ascii :=
  if (n <? 10)%N then ascii_of_N (48 + n) else ascii_of_N (55 + n).

Definition hex_value (c : ascii) : option N :=
  let n := N_of_ascii c in
  if ((48 <=? n) && (n <=? 57))%N then Some (n - 48)%N
  else if ((65 <=? n) && (n <=? 70))%N then Some (n - 55)%N
  else if ((97 <=? n) && (n <=? 102))%N then Some (n - 87)%N
  else None.

Definition is_alnum (n : N) : bool :=
  (((48 <=? n) && (n <=? 57)) || ((65 <=? n) && (n <=? 90))
   || ((97 <=? n) && (n <=? 122)))%N.

(** The characters [encodeURIComponent] leaves alone: letters, digits, and
    the nine marks hyphen, underscore, dot, exclamation mark, tilde, asterisk,
    apostrophe and the two round brackets (given by their codes). *)
Definition uri_unreserved (c : ascii) : bool :=
  let n := N_of_ascii c in
  is_alnum n
  || existsb (N.eqb n) [45; 95; 46; 33; 126; 42; 39; 40; 41]%N.

Definition percent_byte (c : ascii) : string :=
  let n := N_of_ascii c in
  String "%" (String (hex_digit (n / 16)) (String (hex_digit (n mod 16)) "")).

Fixpoint encodeURIComponent (s : string) : string :=
  match s with
  | EmptyString => ""
  | String c r =>
      (if uri_unreserved c then String c "" else percent_byte c)
      ++ encodeURIComponent r
  end.

(** Decoding runs in two passes: the percent escapes are read into octets,
    then every run of escaped octets that starts with a non-ASCII octet has to
    be one well-formed UTF-8 sequence. *)
Inductive uri_item : Type :=
| Lit (c : ascii)
| Oct (b : N).

Fixpoint uri_items (s : string) : option (list uri_item) :=
  match s with
  | EmptyString => Some []
  | String c r =>
      if Ascii.eqb c "%" then
        match r with
        | String h (String l r') =>
            match hex_value h, hex_value l, uri_items r' with
            | Some x, Some y, Some items => Some (Oct (16 * x + y) :: items)
            | _, _, _ => None
            end
        | _ => None
        end
      else option_map (cons (Lit c)) (uri_items r)
  end.

Definition is_cont (b : N) : bool := ((128 <=? b) && (b <=? 191))%N.

Definition oct_char (b : N) : string := String (ascii_of_N b) "".

Fixpoint uri_octets (items : list uri_item) : option string :=
  match items with
  | [] => Some ""
  | Lit c :: r => option_map (String c) (uri_octets r)
  | Oct b :: r =>
      if (b <? 128)%N then option_map (String (ascii_of_N b)) (uri_octets r)
      else if ((194 <=? b) && (b <=? 223))%N then
        match r with
        | Oct b1 :: r1 =>
            if is_cont b1
            then option_map (append (oct_char b ++ oct_char b1)) (uri_octets r1)
            else None
        | _ => None
        end
      else if ((224 <=? b) && (b <=? 239))%N then
        match r with
        | Oct b1 :: Oct b2 :: r2 =>
            if is_cont b1 && is_cont b2
               && negb ((b =? 224) && (b1 <? 160))%N
               && negb ((b =? 237) && (160 <=? b1))%N
            then option_map (append (oct_char b ++ oct_char b1 ++ oct_char b2))
                            (uri_octets r2)
            else None
        | _ => None
        end
      else if ((240 <=? b) && (b <=? 244))%N then
        match r with
        | Oct b1 :: Oct b2 :: Oct b3 :: r3 =>
            if is_cont b1 && is_cont b2 && is_cont b3
               && negb ((b =? 240) && (b1 <? 144))%N
               && negb ((b =? 244) && (144 <=? b1))%N
            then option_map
                   (append (oct_char b ++ oct_char b1 ++ oct_char b2 ++ oct_char b3))
                   (uri_octets r3)
            else None
        | _ => None
        end
      else None
  end.

(** [None] stands for the [URIError] that the builtin throws. *)
Definition decodeURIComponent (s : string) : option string :=
  match uri_items s with
  | Some items => uri_octets items
  | None => None
  end.

(** The serializer of [URLSearchParams] (application/x-www-form-urlencoded):
    letters, digits and asterisk, hyphen, dot, underscore stay, a space becomes
    a plus sign, every other byte is percent-encoded. *)
Definition form_byte (c : ascii) : string :=
  let n := N_of_ascii c in
  if is_alnum n || existsb (N.eqb n) [42; 45; 46; 95]%N then String c ""
  else if (n =? 32)%N then "+"
  else percent_byte c.

Fixpoint form_encode (s : string) : string :=
  match s with
  | EmptyString => ""
  | String c r => form_byte c ++ form_encode r
  end.

(* ================================================================== *)
(** ** Values *)

(** A [Date] object is known by what its two printing methods return. *)
Record Date : Type := mkDate {
  toUTCString : string;
  toString : string
}.

#[warnings="-register-all"]
Inductive value : Type :=
| VUndefined
| VNull
| VBool (b : bool)
| VNum (n : Z)                              (* an integral number *)
| VStr (s : string)
| VDate (d : Date)
| VError (name message : string)            (* an Error object *)
| VParams (entries : list (string * string)) (* a URLSearchParams object *)
| VArr (xs : list value)
| VObj (props : list (string * value)).     (* own enumerable properties *)

Definition obj : Type := list (string * value).

(** ToBoolean. *)
Definition truthy (v : value) : bool :=
  match v with
  | VUndefined | VNull => false
  | VBool b => b
  | VNum n => negb (n =? 0)%Z
  | VStr s => negb (s =? "")
  | _ => true
  end.

(** ToString, as template literals, string concatenation and
    [encodeURIComponent] apply it.  Array elements that are undefined or null
    print as the empty string.  A number is printed as the code prints it
    as long as it is a [safe_integer]. *)
Fixpoint to_string (v : value) : string :=
  match v with
  | VUndefined => "undefined"
  | VNull => "null"
  | VBool true => "true"
  | VBool false => "false"
  | VNum n => string_of_Z n
  | VStr s => s
  | VDate d => toString d
  | VError name message =>
      if name =? "" then message
      else if message =? "" then name
      else name ++ ": " ++ message
  | VParams entries =>
      String.concat "&" (map (fun e => form_encode (fst e) ++ "=" ++ form_encode (snd e))
                       entries)
  | VArr xs =>
      String.concat "," (map (fun x => match x with
                                 | VUndefined | VNull => ""
                                 | _ => to_string x
                                 end) xs)
  | VObj _ => "[object Object]"
  end.

(** One element of [Array.prototype.join]. *)
Definition join_element (v : value) : string :=
  match v with
  | VUndefined | VNull => ""
  | _ => to_string v
  end.

Definition array_join (sep : string) (xs : list value) : string :=
  String.concat sep (map join_element xs).

(** The strict comparison [v !== true]. *)
Definition is_true (v : value) : bool :=
  match v with
  | VBool true => true
  | _ => false
  end.

(* ------------------------------------------------------------------ *)
(** *** Objects *)

(** Property names that are array indices are enumerated first, in ascending
    order; the other names follow in the order of their creation. *)
Fixpoint digits_value (acc : N) (s : string) : option N :=
  match s with
  | EmptyString => Some acc
  | String c r =>
      let n := N_of_ascii c in
      if ((48 <=? n) && (n <=? 57))%N
      then digits_value (10 * acc + (n - 48)) r
      else None
  end.

Definition array_index (k : string) : option N :=
  match k with
  | EmptyString => None
  | String c r =>
      if Ascii.eqb c "0" then (if r =? "" then Some 0%N else None)
      else match digits_value 0 k with
           | Some n => if (n <=? 4294967294)%N then Some n else None
           | None => None
           end
  end.

Fixpoint lookup (k : string) (o : obj) : option value :=
  match o with
  | [] => None
  | (k', v) :: r => if k =? k' then Some v else lookup k r
  end.

(** Reading a property of an object: undefined when it has none. *)
Definition get (o : obj) (k : string) : value :=
  match lookup k o with
  | Some v => v
  | None => VUndefined
  end.

Fixpoint replace (k : string) (v : value) (o : obj) : obj :=
  match o with
  | [] => []
  | (k', v') :: r => if k =? k' then (k, v) :: r else (k', v') :: replace k v r
  end.

Fixpoint insert_index (n : N) (k : string) (v : value) (o : obj) : obj :=
  match o with
  | [] => [(k, v)]
  | (k', v') :: r =>
      match array_index k' with
      | Some m => if (m <? n)%N then (k', v') :: insert_index n k v r
                  else (k, v) :: o
      | None => (k, v) :: o
      end
  end.

(** Assignment [o[k] = v]: an existing property keeps its place. *)
Definition obj_set (k : string) (v : value) (o : obj) : obj :=
  match lookup k o with
  | Some _ => replace k v o
  | None =>
      match array_index k with
      | Some n => insert_index n k v o
      | None => (o ++ [(k, v)])%list
      end
  end.

Fixpoint indexed (i : nat) (xs : list value) : obj :=
  match xs with
  | [] => []
  | x :: r => (string_of_Z (Z.of_nat i), x) :: indexed (S i) r
  end.

Fixpoint chars (s : string) : list value :=
  match s with
  | EmptyString => []
  | String c r => VStr (String c "") :: chars r
  end.

(** The own enumerable properties that a spread [{...v}] copies.  A string
    spreads into its characters (exact for ASCII text). *)
Definition own_props (v : value) : obj :=
  match v with
  | VObj props => props
  | VArr xs => indexed 0 xs
  | VStr s => indexed 0 (chars s)
  | _ => []
  end.

(** [{...target, ...v}] where [target] is what the literal holds so far. *)
Definition spread (v : value) (target : obj) : obj :=
  fold_left (fun o kv => obj_set (fst kv) (snd kv) o) (own_props v) target.

(** The rest pattern of a destructuring: the properties not named. *)
Definition omit (names : list string) (o : obj) : obj :=
  filter (fun kv => negb (existsb (String.eqb (fst kv)) names)) o.

(* ================================================================== *)
(** ** Effects *)

Inductive completion (A : Type) : Type :=
| Normal (a : A)
| Throw (e : value).
Arguments Normal {A} a.
Arguments Throw {A} e.

Inductive event : Type :=
| Log (msg : string)            (* console.log *)
| CsrfGet (url : string)        (* this.csrfClient.get(url) *)
| Request (config : obj)        (* this.client.request(config) *)
| CookieWrite (s : string)      (* document.cookie = s *)
| Alert (msg : string)
| LocationAssign (url : string).

(** [cookie] is what reading [document.cookie] gives, [None] where there is no
    [document]; [trace] lists the effects so far, oldest first. *)
Record Store : Type := mkStore {
  cookie : option string;
  trace : list event
}.

(** What surrounds the client: the globals it reads and the answers of the
    browser and of the two axios instances. *)
Record Host : Type := mkHost {
  isOnServer : bool;                       (* globalAny.isOnServer, as a boolean *)
  location_origin : value;                 (* globalAny.location.origin *)
  REDUX_STATE : value;                     (* globalAny.REDUX_STATE *)
  regexp_match : string -> string -> completion bool;
                                           (* [regexp_match pattern s]: whether
                                              s.match(pattern) finds a match *)
  cookie_assigned : string -> string -> string;
                                           (* document.cookie after an assignment *)
  csrf_get : completion value;             (* outcome of csrfClient.get('') *)
  request : obj -> completion value        (* outcome of client.request(config) *)
}.

Definition M (A : Type) : Type := Store -> completion A * Store.

Definition ret {A} (a : A) : M A := fun st => (Normal a, st).

Definition throw {A} (e : value) : M A := fun st => (Throw e, st).

Definition bind {A B} (m : M A) (k : A -> M B) : M B :=
  fun st =>
    match m st with
    | (Normal a, st') => k a st'
    | (Throw e, st') => (Throw e, st')
    end.

Notation "x <- m ;; k" := (bind m (fun x => k))
  (at level 61, m at next level, right associativity).
Notation "m ;;; k" := (bind m (fun _ => k))
  (at level 61, right associativity).

Definition try_catch {A} (m : M A) (handler : value -> M A) : M A :=
  fun st =>
    match m st with
    | (Normal a, st') => (Normal a, st')
    | (Throw e, st') => handler e st'
    end.

Definition emit (e : event) : M unit :=
  fun st => (Normal tt, mkStore (cookie st) (trace st ++ [e])%list).

Definition lift {A} (c : completion A) : M A :=
  fun st => (c, st).

Definition TypeError (message : string) : value := VError "TypeError" message.

(** Reading [v.k] or [v[k]]; the client reads no inherited property. *)
Definition get_prop (v : value) (k : string) : M value :=
  match v with
  | VUndefined | VNull =>
      throw (TypeError ("Cannot read properties of " ++ to_string v
                        ++ " (reading '" ++ k ++ "')"))
  | _ => ret (get (own_props v) k)
  end.

Definition read_cookie : M string :=
  fun st =>
    match cookie st with
    | Some c => (Normal c, st)
    | None => (Throw (VError "ReferenceError" "document is not defined"), st)
    end.

Definition write_cookie (h : Host) (s : string) : M unit :=
  fun st =>
    match cookie st with
    | Some c => (Normal tt, mkStore (Some (cookie_assigned h c s))
                                    (trace st ++ [CookieWrite s])%list)
    | None => (Throw (VError "ReferenceError" "document is not defined"), st)
    end.

(* ================================================================== *)
(** ** The client *)

(** [document.cookie.match] with the pattern that [getCookie] builds: the name,
    with every special character escaped and so taken literally, at the start
    of the string or after a semicolon and a space, then an equals sign, then
    the captured run up to the next semicolon.  The leftmost match wins. *)
Definition cookie_here (name s : string) : option string :=
  option_map until_semicolon (starts_with (name ++ "=") s).

Fixpoint cookie_later (name s : string) : option string :=
  match s with
  | EmptyString => None
  | String _ r =>
      match starts_with ("; " ++ name ++ "=") s with
      | Some rest => Some (until_semicolon rest)
      | None => cookie_later name r
      end
  end.

Definition cookie_match (name s : string) : option string :=
  match cookie_here name s with
  | Some raw => Some raw
  | None => cookie_later name s
  end.

(** One turn of the loop over the options in [setCookie]. *)
Definition cookie_attribute (updatedCookie : string) (option : string * value)
  : string :=
  let updatedCookie := updatedCookie ++ "; " ++ fst option in
  if is_true (snd option) then updatedCookie
  else updatedCookie ++ "=" ++ to_string (snd option).

(** What [getCookie] returns when [document.cookie] reads [c]. *)
Definition cookie_value (name c : string) : completion value :=
  match cookie_match name c with
  | Some raw =>
      match decodeURIComponent raw with
      | Some s => Normal (VStr s)
      | None => Throw (VError "URIError" "URI malformed")
      end
  | None => Normal VUndefined
  end.

(** The options as the loop of [setCookie] sees them: the default parameter,
    the default path under the caller's options, and a [Date] expiry replaced
    by its UTC string. *)
Definition cookie_options (options : value) : obj :=
  let options := match options with VUndefined => VObj [] | _ => options end in
  let options := spread options (obj_set "path" (VStr "/") []) in
  match get options "expires" with
  | VDate d => obj_set "expires" (VStr (toUTCString d)) options
  | _ => options
  end.

(** The transport options after the token is put into their headers. *)
Definition with_csrf (csrfToken : value) (axiosParams : obj) : obj :=
  obj_set "headers"
    (VObj (obj_set "X-Csrf-Token" csrfToken
             (spread (get axiosParams "headers") [])))
    axiosParams.

Section Client.

Variable h : Host.

Definition getCookie (name : string) : M value :=
  c <- read_cookie ;;
  lift (cookie_value name c).

Definition setCookie (name : string) (val : value) (options : value) : M unit :=
  let options := cookie_options options in
  let updatedCookie :=
    encodeURIComponent name ++ "=" ++ encodeURIComponent (to_string val) in
  write_cookie h (fold_left cookie_attribute options updatedCookie).

Definition getToken : M value :=
  tokenFromCookie <- getCookie "sk" ;;
  emit (Log ("tokenFromCookie " ++ to_string tokenFromCookie)) ;;;
  if truthy tokenFromCookie then ret tokenFromCookie
  else
    try_catch
      (emit (CsrfGet "") ;;;
       response <- lift (csrf_get h) ;;
       csrfTokenResponse <- get_prop response "data" ;;
       sk <- get_prop csrfTokenResponse "sk" ;;
       maxAge <- get_prop csrfTokenResponse "max-age-seconds" ;;
       setCookie "sk" sk (VObj (obj_set "max-age" maxAge [])) ;;;
       c <- read_cookie ;;
       emit (Log ("got new token, set token " ++ c)) ;;;
       get_prop csrfTokenResponse "sk")
      (fun error =>
         throw (VError "Error" ("CSRF token error: " ++ to_string error))).

(** [s.match(pattern)] for the value [s]; only a string has the method. *)
Definition str_match (s : value) (pattern : string) : M bool :=
  match s with
  | VStr subject => lift (regexp_match h pattern subject)
  | _ => throw (TypeError "response.request.responseURL.match is not a function")
  end.

Definition checkResponse (response : value) : M unit :=
  if isOnServer h then ret tt
  else
    paths <- get_prop (REDUX_STATE h) "paths" ;;
    loginPath <- get_prop paths "loginPath" ;;
    let loginUrl := array_join "" [location_origin h; loginPath] in
    req <- get_prop response "request" ;;
    responseURL <- get_prop req "responseURL" ;;
    if truthy responseURL then
      found <- str_match responseURL loginUrl ;;
      if found : bool then
        emit (Alert "Your session expired. You will be redirected to login screen") ;;;
        emit (LocationAssign loginUrl)
      else ret tt
    else ret tt.

(** The block shared by the three actions: resolve the token and put it into
    the headers of the transport options. *)
Definition attach_csrf (axiosParams : obj) : M obj :=
  csrfToken <- getToken ;;
  ret (with_csrf csrfToken axiosParams).

Definition send (config : obj) : M value :=
  emit (Request config) ;;;
  response <- lift (request h config) ;;
  checkResponse response ;;;
  ret response.

Definition resourceAction (options : obj) : M value :=
  let resourceId := get options "resourceId" in
  let actionName := get options "actionName" in
  let data := get options "data" in
  let query := get options "query" in
  let axiosParams := omit ["resourceId"; "actionName"; "data"; "query"] options in
  let url := "/api/resources/" ++ to_string resourceId
             ++ "/actions/" ++ to_string actionName in
  let method := if truthy data then "POST" else "GET" in
  axiosParams <- (if method =? "POST" then attach_csrf axiosParams
                  else ret axiosParams) ;;
  let url := if truthy query
             then String.concat "/" [url; encodeURIComponent (to_string query)]
             else url in
  send (obj_set "data" data
          (spread (VObj axiosParams)
             (obj_set "method" (VStr method) (obj_set "url" (VStr url) [])))).

Definition recordAction (options : obj) : M value :=
  let resourceId := get options "resourceId" in
  let recordId := get options "recordId" in
  let actionName := get options "actionName" in
  let data := get options "data" in
  let axiosParams := omit ["resourceId"; "recordId"; "actionName"; "data"] options in
  let method := if truthy data then "POST" else "GET" in
  axiosParams <- (if method =? "POST" then attach_csrf axiosParams
                  else ret axiosParams) ;;
  let url := "/api/resources/" ++ to_string resourceId ++ "/records/"
             ++ to_string recordId ++ "/" ++ to_string actionName in
  send (obj_set "data" data
          (spread (VObj axiosParams)
             (obj_set "method" (VStr method) (obj_set "url" (VStr url) [])))).

(** [String.prototype.toUpperCase] on ASCII letters. *)
Definition upper (c : ascii) : ascii :=
  let n := N_of_ascii c in
  if ((97 <=? n) && (n <=? 122))%N then ascii_of_N (n - 32) else c.

Fixpoint toUpperCase (s : string) : string :=
  match s with
  | EmptyString => ""
  | String c r => String (upper c) (toUpperCase r)
  end.

(** [(recordIds || []).join(',')]: only an array has [join]. *)
Definition join_recordIds (recordIds : value) : M string :=
  match (if truthy recordIds then recordIds else VArr []) with
  | VArr xs => ret (array_join "," xs)
  | _ => throw (TypeError "(recordIds || []).join is not a function")
  end.

Definition bulkAction (options : obj) : M value :=
  let resourceId := get options "resourceId" in
  let recordIds := get options "recordIds" in
  let actionName := get options "actionName" in
  let data := get options "data" in
  let axiosParams := omit ["resourceId"; "recordIds"; "actionName"; "data"] options in
  let method :=
    if truthy (if truthy (get axiosParams "method")
               then get axiosParams "method" else data)
    then "POST" else "GET" in
  axiosParams <- (if toUpperCase method =? "POST" then attach_csrf axiosParams
                  else ret axiosParams) ;;
  joined <- join_recordIds recordIds ;;
  let params := VParams [("recordIds", joined)] in
  let url := "/api/resources/" ++ to_string resourceId
             ++ "/bulk/" ++ to_string actionName in
  send (obj_set "params" params
          (obj_set "data" data
             (spread (VObj axiosParams)
                (obj_set "method" (VStr method) (obj_set "url" (VStr url) []))))).

Definition searchRecords (resourceId query searchProperty : value) : M value :=
  if isOnServer h then ret (VArr [])
  else
    let actionName := VStr "search" in
    response <-
      resourceAction
        (spread (if truthy searchProperty
                 then VObj (obj_set "params"
                              (VObj (obj_set "searchProperty" searchProperty []))
                              [])
                 else VUndefined)
           (obj_set "query" query
              (obj_set "actionName" actionName
                 (obj_set "resourceId" resourceId [])))) ;;
    checkResponse response ;;;
    data <- get_prop response "data" ;;
    get_prop data "records".

End Client.

(** Running a call from a store with an empty trace. *)
Definition start (c : option string) : Store := mkStore c [].

(* ================================================================== *)
(** ** Vocabulary of the statements *)

(** The configurations handed to [client.request], oldest first. *)
Fixpoint requests (t : list event) : list obj :=
  match t with
  | [] => []
  | Request config :: r => config :: requests r
  | _ :: r => requests r
  end.

Definition is_request (e : event) : bool :=
  match e with
  | Request _ => true
  | _ => false
  end.

(** [only p m]: running [m] appends events to the trace, all of them in [p]. *)
Definition only {A} (p : event -> bool) (m : M A) : Prop :=
  forall st, exists evs,
    trace (snd (m st)) = (trace st ++ evs)%list /\ forallb p evs = true.

(** The events of the token routine and of the response check: anything but a
    request of the main client. *)
Definition quiet {A} (m : M A) : Prop := only (fun e => negb (is_request e)) m.

(** The object literal [{ url, method, ...axiosParams, data }]. *)
Definition request_literal (url method : string) (axiosParams : obj)
  (data : value) : obj :=
  obj_set "data" data
    (spread (VObj axiosParams)
       (obj_set "method" (VStr method) (obj_set "url" (VStr url) []))).

(** The transport options with which the request is built, when it is built:
    with the token in their headers where the call is gated on one, and none
    where the token routine throws. *)
Definition params_for (h : Host) (gate : bool) (axiosParams : obj) (st : Store)
  : option obj :=
  if gate then
    match fst (getToken h st) with
    | Normal csrfToken => Some (with_csrf csrfToken axiosParams)
    | Throw _ => None
    end
  else Some axiosParams.

Definition resource_url (options : obj) : string :=
  let url := "/api/resources/" ++ to_string (get options "resourceId")
             ++ "/actions/" ++ to_string (get options "actionName") in
  if truthy (get options "query")
  then url ++ "/" ++ encodeURIComponent (to_string (get options "query"))
  else url.

Definition record_url (options : obj) : string :=
  "/api/resources/" ++ to_string (get options "resourceId") ++ "/records/"
  ++ to_string (get options "recordId") ++ "/"
  ++ to_string (get options "actionName").

(** The method that [bulkAction] computes, the one its token gate tests. *)
Definition bulk_gate (options : obj) : bool :=
  truthy (get options "method") || truthy (get options "data").

Definition bulk_url (options : obj) : string :=
  "/api/resources/" ++ to_string (get options "resourceId")
  ++ "/bulk/" ++ to_string (get options "actionName").

(** The strings that [(recordIds || []).join(',')] can yield. *)
Definition joined_ids (recordIds : value) : option string :=
  match (if truthy recordIds then recordIds else VArr []) with
  | VArr xs => Some (array_join "," xs)
  | _ => None
  end.

(* ------------------------------------------------------------------ *)
(** *** A browser to run the client in *)

Module Examples.

(** A page served from localhost whose token endpoint hands out the token
    [abc] for an hour and whose API answers every request with one record.
    The cookie jar holds the cookie last assigned. *)
Definition token_response : value :=
  VObj [("data", VObj [("sk", VStr "abc"); ("max-age-seconds", VNum 3600)])].

Definition api_response : value :=
  VObj [("data", VObj [("records", VArr [VObj [("id", VStr "1")]])]);
        ("request", VObj [("responseURL", VStr "http://localhost:3000/admin/api")])].

Definition browser : Host :=
  mkHost false
    (VStr "http://localhost:3000")
    (VObj [("paths", VObj [("rootPath", VStr "/admin");
                           ("loginPath", VStr "/admin/login")])])
    (fun pattern s => Normal false)
    (fun jar assigned => until_semicolon assigned)
    (Normal token_response)
    (fun config => Normal api_response).

(** The same page with the token endpoint down. *)
Definition offline : Host :=
  mkHost false
    (VStr "http://localhost:3000")
    (VObj [("paths", VObj [("rootPath", VStr "/admin");
                           ("loginPath", VStr "/admin/login")])])
    (fun pattern s => Normal false)
    (fun jar assigned => until_semicolon assigned)
    (Throw (VError "Error" "Network Error"))
    (fun config => Normal api_response).

(** Server-side rendering: no window, no document. *)
Definition server : Host :=
  mkHost true VUndefined VUndefined
    (fun pattern s => Normal false)
    (fun jar assigned => jar)
    (Throw (VError "Error" "Network Error"))
    (fun config => Throw (VError "Error" "Network Error")).

Definition list_comments : obj :=
  [("resourceId", VStr "Comments"); ("actionName", VStr "list")].

Definition new_comment : obj :=
  [("resourceId", VStr "Comments"); ("actionName", VStr "new");
   ("data", VObj [("content", VStr "hello")])].

Definition show_comment : obj :=
  [("resourceId", VStr "Comments"); ("recordId", VStr "7");
   ("actionName", VStr "show")].

Definition forged_comment : obj :=
  [("resourceId", VStr "Comments"); ("actionName", VStr "new");
   ("headers", VObj [("X-Csrf-Token", VStr "forged"); ("Accept", VStr "*/*")]);
   ("data", VObj [("content", VStr "hello")])].

Definition delete_none : obj :=
  [("resourceId", VStr "Comments"); ("recordIds", VArr []);
   ("actionName", VStr "delete")].

Definition delete_comments : obj :=
  [("resourceId", VStr "Comments"); ("recordIds", VArr [VStr "1"; VStr "2"]);
   ("actionName", VStr "delete"); ("data", VObj [])].

End Examples.

(* ------------------------------------------------------------------ *)
(** *** Predicates on a finished call *)

(** The requests that a call left in its trace. *)
Definition issued {A} (r : completion A * Store) : list obj :=
  requests (trace (snd r)).

(** The request holds, under [X-Csrf-Token], the token that [getToken] returns
    when run from the store in which the call started. *)
Definition carries_token (h : Host) (c : option string) (config : obj) : Prop :=
  exists csrfToken st headers,
    getToken h (start c) = (Normal csrfToken, st)
    /\ lookup "headers" config = Some (VObj headers)
    /\ lookup "X-Csrf-Token" headers = Some csrfToken.

(** Whatever runs only adds to the trace. *)
Definition grows {A} (m : M A) : Prop := only (fun _ => true) m.

(** Cookie [sk] is missing from [document.cookie], or is there with the empty
    value: the two cases in which [getCookie] yields a falsy value. *)
Definition no_token (c : string) : Prop :=
  cookie_match "sk" c = None \/ cookie_match "sk" c = Some "".

(** The last expression of [searchRecords]: [response.data.records]. *)
Definition data_records (response : value) : M value :=
  data <- get_prop response "data" ;;
  get_prop data "records".

(** The options that [searchRecords] hands to [resourceAction]. *)
Definition search_options (resourceId query searchProperty : value) : obj :=
  ([("resourceId", resourceId); ("actionName", VStr "search"); ("query", query)]
   ++ (if truthy searchProperty
       then [("params", VObj [("searchProperty", searchProperty)])]
       else []))%list.

(** One attribute of the cookie string, as the specification words it: the
    name alone for an option that is [true], name and value otherwise. *)
Definition attribute_text (option : string * value) : string :=
  "; " ++ fst option
  ++ (if is_true (snd option) then "" else "=" ++ to_string (snd option)).

(* ================================================================== *)
(** ** The rest of the client *)

(** [getPage]: the request literal is [{ url, ...axiosParams }]. *)
Definition getPage (h : Host) (options : obj) : M value :=
  let pageName := get options "pageName" in
  let axiosParams := omit ["pageName"] options in
  send h (spread (VObj axiosParams)
            (obj_set "url" (VStr ("/api/pages/" ++ to_string pageName)) [])).

(** [getBaseUrl]; the optional chaining stops at a missing [REDUX_STATE]
    only. *)
Definition getBaseUrl (h : Host) : M string :=
  if isOnServer h then ret ""
  else
    rootPath <- match REDUX_STATE h with
                | VUndefined | VNull => ret VUndefined
                | state => paths <- get_prop state "paths" ;;
                           get_prop paths "rootPath"
                end ;;
    ret (array_join "" [location_origin h; rootPath]).

(** The values whose properties cannot be read. *)
Definition nullish (v : value) : bool :=
  match v with
  | VUndefined | VNull => true
  | _ => false
  end.

(* ------------------------------------------------------------------ *)
(** *** Counting effects *)

(** The calls of the token endpoint. *)
Fixpoint csrf_calls (t : list event) : nat :=
  match t with
  | [] => 0
  | CsrfGet _ :: r => S (csrf_calls r)
  | _ :: r => csrf_calls r
  end.

(** The strings assigned to [document.cookie], oldest first. *)
Fixpoint cookie_writes (t : list event) : list string :=
  match t with
  | [] => []
  | CookieWrite s :: r => s :: cookie_writes r
  | _ :: r => cookie_writes r
  end.

(** The alerts and navigations of the session check. *)
Fixpoint redirects (t : list event) : list string :=
  match t with
  | [] => []
  | LocationAssign url :: r => url :: redirects r
  | _ :: r => redirects r
  end.

(* ------------------------------------------------------------------ *)
(** *** Cookie jars and well-formed text *)

Fixpoint has_char (x : ascii) (s : string) : bool :=
  match s with
  | EmptyString => false
  | String c r => Ascii.eqb c x || has_char x r
  end.

(** What [document.cookie] reads for a jar of name and value pairs. *)
Definition pair_text (p : string * string) : string := fst p ++ "=" ++ snd p.

Definition jar_string (pairs : list (string * string)) : string :=
  String.concat "; " (map pair_text pairs).

(** The jar after its first pair. *)
Fixpoint jar_rest (pairs : list (string * string)) : string :=
  match pairs with
  | [] => ""
  | p :: r => "; " ++ pair_text p ++ jar_rest r
  end.

(** Names hold neither a semicolon nor an equals sign, values no
    semicolon. *)
Definition pair_ok (p : string * string) : Prop :=
  has_char ";" (fst p) = false /\ has_char "=" (fst p) = false
  /\ has_char ";" (snd p) = false.

(** The value of the first pair with the given name. *)
Fixpoint jar_find (name : string) (pairs : list (string * string))
  : option string :=
  match pairs with
  | [] => None
  | p :: r => if fst p =? name then Some (snd p) else jar_find name r
  end.

(** Well-formed UTF-8: the strings that stand for JavaScript strings. *)
Fixpoint utf8 (s : string) : bool :=
  match s with
  | EmptyString => true
  | String c r =>
      let b := N_of_ascii c in
      if (b <? 128)%N then utf8 r
      else if ((194 <=? b) && (b <=? 223))%N then
        match r with
        | String c1 r1 => is_cont (N_of_ascii c1) && utf8 r1
        | _ => false
        end
      else if ((224 <=? b) && (b <=? 239))%N then
        match r with
        | String c1 (String c2 r2) =>
            is_cont (N_of_ascii c1) && is_cont (N_of_ascii c2)
            && negb ((b =? 224) && (N_of_ascii c1 <? 160))%N
            && negb ((b =? 237) && (160 <=? N_of_ascii c1))%N
            && utf8 r2
        | _ => false
        end
      else if ((240 <=? b) && (b <=? 244))%N then
        match r with
        | String c1 (String c2 (String c3 r3)) =>
            is_cont (N_of_ascii c1) && is_cont (N_of_ascii c2)
            && is_cont (N_of_ascii c3)
            && negb ((b =? 240) && (N_of_ascii c1 <? 144))%N
            && negb ((b =? 244) && (144 <=? N_of_ascii c1))%N
            && utf8 r3
        | _ => false
        end
      else false
  end.

(** How [encodeURIComponent] treats one byte, seen from the decoder. *)
Definition item_of (c : ascii) : uri_item :=
  if uri_unreserved c then Lit c else Oct (N_of_ascii c).

(** The characters that delimit cookies, paths and query strings. *)
Definition delimiter (x : ascii) : bool :=
  existsb (Ascii.eqb x) [";"; "="; "/"; "?"; "#"; "&"; ","; " "]%char.

(** The string that [getToken] assigns to [document.cookie] for a token
    [sk] and the lifetime [maxAge] of the endpoint's answer. *)
Definition token_cookie (sk maxAge : value) : string :=
  fold_left cookie_attribute
    (cookie_options (VObj (obj_set "max-age" maxAge [])))
    (encodeURIComponent "sk" ++ "=" ++ encodeURIComponent (to_string sk)).

(** The three actions. *)
Definition actions : list (Host -> obj -> M value) :=
  [resourceAction; recordAction; bulkAction].

(** The store in which an action sends its request: the one it started in,
    or the one the token routine left. *)
Definition before_send (h : Host) (c : option string) (st : Store) : Prop :=
  st = start c \/ st = snd (getToken h (start c)).

(** The events of the token routine, and those of sending a request. *)
Definition is_token_event (e : event) : bool :=
  match e with
  | Log _ | CsrfGet _ | CookieWrite _ => true
  | _ => false
  end.

Definition is_send_event (e : event) : bool :=
  match e with
  | Request _ | Alert _ | LocationAssign _ => true
  | _ => false
  end.

(** The login URL that the session check builds, where the page state holds
    a login path. *)
Definition login_url (h : Host) : string :=
  array_join ""
    [location_origin h;
     get (own_props (get (own_props (REDUX_STATE h)) "paths")) "loginPath"].

Definition expired_message : string :=
  "Your session expired. You will be redirected to login screen".

(** The test of the session check, in a browser whose page state holds the
    paths: the answered request ended on a URL that matches the login URL. *)
Definition session_expired (h : Host) (response : value) : Prop :=
  isOnServer h = false
  /\ nullish (REDUX_STATE h) = false
  /\ nullish (get (own_props (REDUX_STATE h)) "paths") = false
  /\ nullish response = false
  /\ nullish (get (own_props response) "request") = false
  /\ exists url,
       get (own_props (get (own_props response) "request")) "responseURL"
       = VStr url
       /\ url <> ""
       /\ regexp_match h (login_url h) url = Normal true.

(** What a request keeps of the caller's headers: all of them but a header
    named [X-Csrf-Token] where the token was attached, the very [headers]
    property otherwise. *)
Definition headers_kept (gated : bool) (options config : obj) : Prop :=
  if gated then
    exists headers,
      lookup "headers" config = Some (VObj headers)
      /\ forall k, k <> "X-Csrf-Token" ->
                   lookup k headers
                   = lookup k (own_props (get options "headers"))
  else lookup "headers" config = lookup "headers" options.

(** A transport option that an action hands on: absent when it is one of
    the names the action takes for itself. *)
Definition handed_on (taken : list string) (options : obj) (k : string)
  : option value :=
  if existsb (String.eqb k) taken then None else lookup k options.

(* ================================================================== *)
(** ** Facts about objects *)

Lemma lookup_none_iff (k : string) (o : obj) :
  lookup k o = None <-> ~ In k (map fst o).
Proof.
  induction o as [|[k' v'] r IH]; simpl.
  - tauto.
  - destruct (String.eqb_spec k k') as [->|Hne].
    + split; [discriminate | intros H; exfalso; apply H; now left].
    + rewrite IH. split.
      * intros H [E|I]; [congruence | tauto].
      * intros H I. apply H. now right.
Qed.

Lemma lookup_in (k : string) (v : value) (o : obj) :
  lookup k o = Some v -> In (k, v) o.
Proof.
  induction o as [|[k' v'] r IH]; simpl; [discriminate|].
  destruct (String.eqb_spec k k') as [->|Hne].
  - intros [= ->]. now left.
  - intros H. right. now apply IH.
Qed.

Lemma lookup_app (k : string) (o1 o2 : obj) :
  lookup k (o1 ++ o2)%list
  = match lookup k o1 with Some v => Some v | None => lookup k o2 end.
Proof.
  induction o1 as [|[k' v'] r IH]; simpl; [reflexivity|].
  now destruct (k =? k').
Qed.

Lemma lookup_replace_same (k : string) (v : value) (o : obj) :
  lookup k o <> None -> lookup k (replace k v o) = Some v.
Proof.
  induction o as [|[k' v'] r IH]; simpl; [congruence|].
  destruct (String.eqb_spec k k') as [->|Hne]; simpl.
  - now rewrite String.eqb_refl.
  - intros H. destruct (String.eqb_spec k k'); [congruence | now apply IH].
Qed.

Lemma lookup_replace_other (k k' : string) (v : value) (o : obj) :
  k' <> k -> lookup k' (replace k v o) = lookup k' o.
Proof.
  intros Hne. induction o as [|[k1 v1] r IH]; simpl; [reflexivity|].
  destruct (String.eqb_spec k k1) as [->|Hk]; simpl.
  - destruct (String.eqb_spec k' k1); [congruence | reflexivity].
  - now rewrite IH.
Qed.

Lemma lookup_insert_index_same (n : N) (k : string) (v : value) (o : obj) :
  lookup k o = None -> lookup k (insert_index n k v o) = Some v.
Proof.
  induction o as [|[k1 v1] r IH]; simpl.
  - now rewrite String.eqb_refl.
  - destruct (String.eqb_spec k k1) as [->|Hne]; [discriminate|]. intros H.
    destruct (array_index k1) as [m|]; [destruct (m <? n)%N|]; simpl;
      rewrite ?String.eqb_refl; try reflexivity.
    destruct (String.eqb_spec k k1); [congruence | now apply IH].
Qed.

Lemma lookup_insert_index_other (n : N) (k k' : string) (v : value) (o : obj) :
  k' <> k -> lookup k' (insert_index n k v o) = lookup k' o.
Proof.
  intros Hne. induction o as [|[k1 v1] r IH]; simpl.
  - destruct (String.eqb_spec k' k); [congruence | reflexivity].
  - destruct (array_index k1) as [m|]; [destruct (m <? n)%N|]; simpl.
    + now rewrite IH.
    + destruct (String.eqb_spec k' k); [congruence | reflexivity].
    + destruct (String.eqb_spec k' k); [congruence | reflexivity].
Qed.

Lemma lookup_obj_set_same (k : string) (v : value) (o : obj) :
  lookup k (obj_set k v o) = Some v.
Proof.
  unfold obj_set. destruct (lookup k o) eqn:E.
  - apply lookup_replace_same. congruence.
  - destruct (array_index k).
    + now apply lookup_insert_index_same.
    + rewrite lookup_app, E. simpl. now rewrite String.eqb_refl.
Qed.

Lemma lookup_obj_set_other (k k' : string) (v : value) (o : obj) :
  k' <> k -> lookup k' (obj_set k v o) = lookup k' o.
Proof.
  intros Hne. unfold obj_set. destruct (lookup k o) eqn:E.
  - now apply lookup_replace_other.
  - destruct (array_index k).
    + now apply lookup_insert_index_other.
    + rewrite lookup_app. destruct (lookup k' o); [reflexivity|]. simpl.
      destruct (String.eqb_spec k' k); [congruence | reflexivity].
Qed.

Lemma get_obj_set_same (k : string) (v : value) (o : obj) :
  get (obj_set k v o) k = v.
Proof. unfold get. now rewrite lookup_obj_set_same. Qed.

Lemma get_obj_set_other (k k' : string) (v : value) (o : obj) :
  k' <> k -> get (obj_set k v o) k' = get o k'.
Proof. intros H. unfold get. now rewrite lookup_obj_set_other. Qed.

Lemma lookup_fold_absent (k : string) (src target : obj) :
  ~ In k (map fst src) ->
  lookup k (fold_left (fun o kv => obj_set (fst kv) (snd kv) o) src target)
  = lookup k target.
Proof.
  revert target. induction src as [|[k1 v1] r IH]; simpl; intros target H.
  - reflexivity.
  - rewrite IH by tauto. apply lookup_obj_set_other. intros ->. tauto.
Qed.

Lemma lookup_fold_present (k : string) (v : value) (src target : obj) :
  NoDup (map fst src) -> lookup k src = Some v ->
  lookup k (fold_left (fun o kv => obj_set (fst kv) (snd kv) o) src target)
  = Some v.
Proof.
  revert target. induction src as [|[k1 v1] r IH]; simpl; intros target Hnd H.
  - discriminate.
  - inversion Hnd as [|? ? Hnotin Hnd']; subst.
    destruct (String.eqb_spec k k1) as [->|Hne].
    + injection H as ->. rewrite lookup_fold_absent by assumption.
      apply lookup_obj_set_same.
    + now apply IH.
Qed.

(** A property that the spread value lacks is left as the literal had it. *)
Lemma lookup_spread_absent (k : string) (v : value) (target : obj) :
  lookup k (own_props v) = None ->
  lookup k (spread v target) = lookup k target.
Proof.
  intros H. apply lookup_fold_absent. now apply lookup_none_iff.
Qed.

(** A property that the spread value has replaces what the literal had. *)
Lemma lookup_spread_present (k : string) (x v : value) (target : obj) :
  NoDup (map fst (own_props v)) -> lookup k (own_props v) = Some x ->
  lookup k (spread v target) = Some x.
Proof. intros Hnd H. now apply lookup_fold_present. Qed.

Lemma lookup_omit (k : string) (names : list string) (o : obj) :
  lookup k (omit names o)
  = if existsb (String.eqb k) names then None else lookup k o.
Proof.
  induction o as [|[k1 v1] r IH]; simpl.
  - now destruct (existsb _ names).
  - destruct (existsb (String.eqb k1) names) eqn:E1; simpl.
    + rewrite IH. destruct (String.eqb_spec k k1) as [->|Hne]; [|reflexivity].
      now rewrite E1.
    + rewrite IH. destruct (String.eqb_spec k k1) as [->|Hne]; [|reflexivity].
      now rewrite E1.
Qed.

Lemma NoDup_omit (names : list string) (o : obj) :
  NoDup (map fst o) -> NoDup (map fst (omit names o)).
Proof.
  induction o as [|[k1 v1] r IH]; simpl; intros H; [constructor|].
  inversion H as [|? ? Hnotin Hnd]; subst.
  destruct (existsb (String.eqb k1) names); simpl; [now apply IH|].
  constructor; [|now apply IH].
  intros I. apply Hnotin. unfold omit in I.
  apply in_map_iff in I as [[k2 v2] [E I]]. simpl in E. subst k2.
  apply filter_In in I as [I _]. apply in_map_iff. now exists (k1, v2).
Qed.

(* ================================================================== *)
(** ** Traces *)

Lemma requests_app (t1 t2 : list event) :
  requests (t1 ++ t2) = (requests t1 ++ requests t2)%list.
Proof.
  induction t1 as [|e r IH]; simpl; [reflexivity|].
  destruct e; simpl; now rewrite IH.
Qed.

Lemma requests_none (t : list event) :
  forallb (fun e => negb (is_request e)) t = true -> requests t = [].
Proof.
  induction t as [|e r IH]; simpl; [reflexivity|].
  destruct e; simpl; intros H; try discriminate; now apply IH.
Qed.

Section Only.

Variable p : event -> bool.

Lemma only_ret {A} (a : A) : only p (ret a).
Proof. intros st. exists []. simpl. now rewrite app_nil_r. Qed.

Lemma only_throw {A} (e : value) : only p (@throw A e).
Proof. intros st. exists []. simpl. now rewrite app_nil_r. Qed.

Lemma only_lift {A} (c : completion A) : only p (lift c).
Proof. intros st. exists []. simpl. now rewrite app_nil_r. Qed.

Lemma only_emit (e : event) : p e = true -> only p (emit e).
Proof. intros H st. exists [e]. simpl. now rewrite H. Qed.

Lemma only_bind {A B} (m : M A) (k : A -> M B) :
  only p m -> (forall a, only p (k a)) -> only p (bind m k).
Proof.
  intros Hm Hk st. unfold bind. destruct (Hm st) as [e1 [E1 P1]].
  destruct (m st) as [[a|e] st1]; simpl in E1.
  - destruct (Hk a st1) as [e2 [E2 P2]]. exists (e1 ++ e2)%list.
    rewrite E2, E1, app_assoc, forallb_app, P1, P2. now split.
  - exists e1. now split.
Qed.

Lemma only_try_catch {A} (m : M A) (handler : value -> M A) :
  only p m -> (forall e, only p (handler e)) -> only p (try_catch m handler).
Proof.
  intros Hm Hk st. unfold try_catch. destruct (Hm st) as [e1 [E1 P1]].
  destruct (m st) as [[a|e] st1]; simpl in E1.
  - exists e1. now split.
  - destruct (Hk e st1) as [e2 [E2 P2]]. exists (e1 ++ e2)%list.
    rewrite E2, E1, app_assoc, forallb_app, P1, P2. now split.
Qed.

Lemma only_get_prop (v : value) (k : string) : only p (get_prop v k).
Proof. destruct v; simpl; (apply only_ret || apply only_throw). Qed.

Lemma only_read_cookie : only p read_cookie.
Proof.
  intros st. exists []. unfold read_cookie.
  destruct (cookie st); simpl; now rewrite app_nil_r.
Qed.

Lemma only_write_cookie (h : Host) (s : string) :
  p (CookieWrite s) = true -> only p (write_cookie h s).
Proof.
  intros H st. unfold write_cookie. destruct (cookie st); simpl.
  - exists [CookieWrite s]. simpl. now rewrite H.
  - exists []. now rewrite app_nil_r.
Qed.

End Only.

Create HintDb only.

#[local] Hint Resolve only_ret only_throw only_lift only_get_prop
  only_read_cookie : only.

Lemma quiet_requests {A} (m : M A) (st : Store) :
  quiet m -> requests (trace (snd (m st))) = requests (trace st).
Proof.
  intros H. destruct (H st) as [evs [E P]].
  rewrite E, requests_app, (requests_none evs P). apply app_nil_r.
Qed.

Lemma quiet_getCookie (name : string) : quiet (getCookie name).
Proof.
  unfold quiet, getCookie. apply only_bind; auto with only.
Qed.

Lemma quiet_setCookie (h : Host) name val options :
  quiet (setCookie h name val options).
Proof. unfold quiet, setCookie. now apply only_write_cookie. Qed.

Lemma quiet_getToken (h : Host) : quiet (getToken h).
Proof.
  unfold quiet, getToken.
  apply only_bind; [apply quiet_getCookie|]. intros t.
  apply only_bind; [now apply only_emit|]. intros _.
  destruct (truthy t); [apply only_ret|].
  apply only_try_catch; [|intros; apply only_throw].
  repeat (apply only_bind; [|intros]);
    first [ now apply only_emit | apply quiet_setCookie | auto with only ].
Qed.

Lemma quiet_checkResponse (h : Host) (response : value) :
  quiet (checkResponse h response).
Proof.
  unfold quiet, checkResponse. destruct (isOnServer h); [apply only_ret|].
  apply only_bind; [auto with only|]. intros paths.
  apply only_bind; [auto with only|]. intros loginPath.
  apply only_bind; [auto with only|]. intros req.
  apply only_bind; [auto with only|]. intros responseURL.
  destruct (truthy responseURL); [|apply only_ret].
  apply only_bind.
  - unfold str_match. destruct responseURL; auto with only.
  - intros [|]; [|apply only_ret].
    apply only_bind; intros; now apply only_emit.
Qed.

(** Sending issues exactly one request, the one it is given. *)
Lemma send_requests (h : Host) (config : obj) (st : Store) :
  requests (trace (snd (send h config st)))
  = (requests (trace st) ++ [config])%list.
Proof.
  unfold send, bind, emit, lift. simpl.
  destruct (request h config) as [response|e]; simpl.
  - pose proof (quiet_requests (checkResponse h response)
                  (mkStore (cookie st) (trace st ++ [Request config]))
                  (quiet_checkResponse h response)) as Q.
    destruct (checkResponse h response _) as [[[]|e] st2]; simpl in *;
      rewrite Q, requests_app; reflexivity.
  - now rewrite requests_app.
Qed.

(* ================================================================== *)
(** ** The requests that the three actions issue *)

Lemma getToken_requests (h : Host) (c : option string) :
  requests (trace (snd (getToken h (start c)))) = [].
Proof. now rewrite quiet_requests by apply quiet_getToken. Qed.

Lemma resourceAction_requests (h : Host) (options : obj) (c : option string) :
  requests (trace (snd (resourceAction h options (start c))))
  = match params_for h (truthy (get options "data"))
            (omit ["resourceId"; "actionName"; "data"; "query"] options)
            (start c) with
    | Some axiosParams =>
        [request_literal (resource_url options)
           (if truthy (get options "data") then "POST" else "GET")
           axiosParams (get options "data")]
    | None => []
    end.
Proof.
  unfold resourceAction, params_for, resource_url, request_literal.
  destruct (truthy (get options "data")); simpl.
  - unfold attach_csrf, bind at 1. unfold bind at 1.
    pose proof (getToken_requests h c) as Q.
    destruct (getToken h (start c)) as [[tok|e] st1]; simpl in *.
    + rewrite send_requests, Q. simpl.
      now destruct (truthy (get options "query")).
    + exact Q.
  - unfold bind at 1. simpl. rewrite send_requests. simpl.
    now destruct (truthy (get options "query")).
Qed.

Lemma recordAction_requests (h : Host) (options : obj) (c : option string) :
  requests (trace (snd (recordAction h options (start c))))
  = match params_for h (truthy (get options "data"))
            (omit ["resourceId"; "recordId"; "actionName"; "data"] options)
            (start c) with
    | Some axiosParams =>
        [request_literal (record_url options)
           (if truthy (get options "data") then "POST" else "GET")
           axiosParams (get options "data")]
    | None => []
    end.
Proof.
  unfold recordAction, params_for, record_url, request_literal.
  destruct (truthy (get options "data")); simpl.
  - unfold attach_csrf, bind at 1. unfold bind at 1.
    pose proof (getToken_requests h c) as Q.
    destruct (getToken h (start c)) as [[tok|e] st1]; simpl in *.
    + now rewrite send_requests, Q.
    + exact Q.
  - unfold bind at 1. simpl. now rewrite send_requests.
Qed.

Lemma bulk_gate_computed (options : obj) :
  let axiosParams :=
    omit ["resourceId"; "recordIds"; "actionName"; "data"] options in
  truthy (if truthy (get axiosParams "method")
          then get axiosParams "method" else get options "data")
  = bulk_gate options.
Proof.
  unfold bulk_gate, get. rewrite lookup_omit. simpl.
  destruct (truthy match lookup "method" options with
                   | Some v => v | None => VUndefined end) eqn:E;
    [exact E | reflexivity].
Qed.

Lemma bulkAction_requests (h : Host) (options : obj) (c : option string) :
  requests (trace (snd (bulkAction h options (start c))))
  = match params_for h (bulk_gate options)
            (omit ["resourceId"; "recordIds"; "actionName"; "data"] options)
            (start c),
          joined_ids (get options "recordIds") with
    | Some axiosParams, Some joined =>
        [obj_set "params" (VParams [("recordIds", joined)])
           (request_literal (bulk_url options)
              (if bulk_gate options then "POST" else "GET")
              axiosParams (get options "data"))]
    | _, _ => []
    end.
Proof.
  unfold bulkAction, params_for, bulk_url, request_literal.
  rewrite bulk_gate_computed.
  unfold joined_ids, join_recordIds.
  destruct (bulk_gate options); simpl.
  - unfold attach_csrf, bind at 1. unfold bind at 1.
    pose proof (getToken_requests h c) as Q.
    destruct (getToken h (start c)) as [[tok|e] st1]; simpl in *; [|exact Q].
    unfold bind at 1.
    destruct (if truthy (get options "recordIds") then _ else _);
      simpl; try exact Q.
    now rewrite send_requests, Q.
  - unfold bind at 1. simpl. unfold bind at 1.
    destruct (if truthy (get options "recordIds") then _ else _);
      simpl; try reflexivity.
    now rewrite send_requests.
Qed.

(* ------------------------------------------------------------------ *)
(** *** Objects name each property once *)

Lemma keys_replace (k : string) (v : value) (o : obj) :
  map fst (replace k v o) = map fst o.
Proof.
  induction o as [|[k1 v1] r IH]; simpl; [reflexivity|].
  destruct (String.eqb_spec k k1) as [->|Hne]; simpl; [reflexivity|].
  now rewrite IH.
Qed.

Lemma keys_insert_index (n : N) (k x : string) (v : value) (o : obj) :
  In x (map fst (insert_index n k v o)) <-> x = k \/ In x (map fst o).
Proof.
  induction o as [|[k1 v1] r IH]; simpl.
  - intuition congruence.
  - destruct (array_index k1) as [m|]; [destruct (m <? n)%N|]; simpl;
      rewrite ?IH; intuition congruence.
Qed.

Lemma NoDup_insert_index (n : N) (k : string) (v : value) (o : obj) :
  ~ In k (map fst o) -> NoDup (map fst o) ->
  NoDup (map fst (insert_index n k v o)).
Proof.
  induction o as [|[k1 v1] r IH]; simpl; intros Hk Hnd.
  - constructor; [tauto | constructor].
  - inversion Hnd as [|? ? Hnotin Hnd']; subst.
    assert (Hcons : NoDup (k :: k1 :: map fst r)).
    { constructor; [simpl; tauto | assumption]. }
    destruct (array_index k1) as [m|]; [destruct (m <? n)%N|]; simpl;
      try exact Hcons.
    constructor; [|apply IH; tauto].
    rewrite keys_insert_index. intros [->|I]; tauto.
Qed.

Lemma NoDup_obj_set (k : string) (v : value) (o : obj) :
  NoDup (map fst o) -> NoDup (map fst (obj_set k v o)).
Proof.
  intros Hnd. unfold obj_set. destruct (lookup k o) eqn:E.
  - now rewrite keys_replace.
  - apply lookup_none_iff in E. destruct (array_index k).
    + now apply NoDup_insert_index.
    + rewrite map_app. simpl. apply NoDup_app; repeat split; trivial.
      * constructor; [tauto | constructor].
      * intros x I [<-|[]]. tauto.
Qed.

Lemma NoDup_with_csrf (csrfToken : value) (axiosParams : obj) :
  NoDup (map fst axiosParams) ->
  NoDup (map fst (with_csrf csrfToken axiosParams)).
Proof. apply NoDup_obj_set. Qed.

(* ------------------------------------------------------------------ *)
(** *** Reading the request literal *)

Lemma params_for_lookup (h : Host) (gate : bool) (axiosParams ap : obj)
  (st : Store) (k : string) :
  params_for h gate axiosParams st = Some ap -> k <> "headers" ->
  lookup k ap = lookup k axiosParams.
Proof.
  unfold params_for. destruct gate.
  - destruct (fst (getToken h st)); [|discriminate]. intros [= <-] Hk.
    now apply lookup_obj_set_other.
  - now intros [= <-].
Qed.

Lemma params_for_NoDup (h : Host) (gate : bool) (axiosParams ap : obj)
  (st : Store) :
  params_for h gate axiosParams st = Some ap ->
  NoDup (map fst axiosParams) -> NoDup (map fst ap).
Proof.
  unfold params_for. destruct gate.
  - destruct (fst (getToken h st)); [|discriminate]. intros [= <-].
    apply NoDup_with_csrf.
  - now intros [= <-].
Qed.

(** A property of the transport options wins over the literal's [url] and
    [method]; without one the literal's own value stands. *)
Lemma literal_own (url method : string) (ap : obj) (data : value) (k : string) :
  lookup k ap = None -> k <> "data" ->
  lookup k (request_literal url method ap data)
  = lookup k [("url", VStr url); ("method", VStr method)].
Proof.
  intros Hk Hd. unfold request_literal.
  rewrite lookup_obj_set_other by assumption.
  now rewrite lookup_spread_absent by assumption.
Qed.

Lemma literal_spread (url method : string) (ap : obj) (data v : value)
  (k : string) :
  NoDup (map fst ap) -> lookup k ap = Some v -> k <> "data" ->
  lookup k (request_literal url method ap data) = Some v.
Proof.
  intros Hnd Hk Hd. unfold request_literal.
  rewrite lookup_obj_set_other by assumption.
  now apply lookup_spread_present.
Qed.

Lemma lookup_with_csrf_headers (csrfToken : value) (axiosParams : obj) :
  exists headers,
    lookup "headers" (with_csrf csrfToken axiosParams) = Some (VObj headers)
    /\ lookup "X-Csrf-Token" headers = Some csrfToken.
Proof.
  eexists. unfold with_csrf. rewrite lookup_obj_set_same. split; [reflexivity|].
  apply lookup_obj_set_same.
Qed.

(* ================================================================== *)
(** ** Method selection *)

(** C1, as stated, fails: a call of [resourceAction] without [data] whose
    transport options name the method [DELETE] issues a [DELETE] request, not
    a [GET] request.  The spread of the transport options comes after the
    computed method in the request literal and replaces it. *)
Lemma resourceAction_explicit_method_wins :
  let options := [("resourceId", VStr "Comments"); ("actionName", VStr "list");
                  ("method", VStr "DELETE")] in
  truthy (get options "data") = false
  /\ map (fun config => get config "method")
         (issued (resourceAction Examples.browser options (start (Some ""))))
     = [VStr "DELETE"].
Proof. split; reflexivity. Qed.

(** C1, amended: for every call of [resourceAction] and of [recordAction]
    whose transport options have no [method] property of their own, the
    method of the issued request is POST if and only if [data] is truthy, and
    GET otherwise. *)
Theorem action_method_follows_data (h : Host) (options : obj)
  (c : option string) :
  lookup "method" options = None ->
  forall config,
    In config (issued (resourceAction h options (start c)))
    \/ In config (issued (recordAction h options (start c))) ->
    (get config "method" = VStr "POST" <-> truthy (get options "data") = true)
    /\ (get config "method" = VStr "GET" <-> truthy (get options "data") = false).
Proof.
  intros Hm config Hin.
  assert (E : get config "method"
              = VStr (if truthy (get options "data") then "POST" else "GET")).
  { unfold issued in Hin.
    rewrite resourceAction_requests, recordAction_requests in Hin.
    destruct Hin as [Hin|Hin];
      destruct (params_for _ _ _ _) as [ap|] eqn:P; simpl in Hin;
      try contradiction; destruct Hin as [<-|[]];
      unfold get; rewrite literal_own; try reflexivity; try discriminate;
      rewrite (params_for_lookup _ _ _ _ _ _ P) by discriminate;
      rewrite lookup_omit; exact Hm. }
  rewrite E. destruct (truthy (get options "data"));
    split; split; intros H; (reflexivity || discriminate).
Qed.

Lemma action_method_follows_data_witness :
  (exists config,
      issued (resourceAction Examples.browser Examples.new_comment
                (start (Some "sk=abc"))) = [config]
      /\ get config "method" = VStr "POST")
  /\ (exists config,
         issued (recordAction Examples.browser Examples.show_comment
                   (start (Some "sk=abc"))) = [config]
         /\ get config "method" = VStr "GET").
Proof.
  split; eexists; (split; [reflexivity|]).
  - destruct (action_method_follows_data Examples.browser Examples.new_comment
                (Some "sk=abc") eq_refl _ (or_introl (or_introl eq_refl)))
      as [[_ H] _].
    apply H. reflexivity.
  - destruct (action_method_follows_data Examples.browser Examples.show_comment
                (Some "sk=abc") eq_refl _ (or_intror (or_introl eq_refl)))
      as [_ [_ H]].
    apply H. reflexivity.
Defined.

Lemma bulk_issued_method (h : Host) (options : obj) (c : option string) :
  NoDup (map fst options) ->
  forall config,
    In config (issued (bulkAction h options (start c))) ->
    get config "method"
    = match lookup "method" options with
      | Some method => method
      | None => VStr (if truthy (get options "data") then "POST" else "GET")
      end.
Proof.
  intros Hnd config Hin. unfold issued in Hin.
  rewrite bulkAction_requests in Hin.
  destruct (params_for _ _ _ _) as [ap|] eqn:P; [|contradiction].
  destruct (joined_ids _) as [joined|]; [|contradiction].
  destruct Hin as [<-|[]].
  assert (L : lookup "method" ap = lookup "method" options).
  { rewrite (params_for_lookup _ _ _ _ _ _ P) by discriminate.
    now rewrite lookup_omit. }
  unfold get at 1. rewrite lookup_obj_set_other by discriminate.
  destruct (lookup "method" options) as [method|] eqn:E.
  - rewrite (literal_spread _ _ _ _ method); trivial; try discriminate.
    eapply params_for_NoDup; [exact P | now apply NoDup_omit].
  - rewrite literal_own by (trivial; discriminate). simpl.
    unfold bulk_gate, get. now rewrite E.
Qed.

(** C2, as stated, fails: a call of [bulkAction] without [data] whose
    transport options name the method [DELETE] has a truthy [method], yet the
    request it issues is a [DELETE] request, not a [POST] request. *)
Lemma bulkAction_explicit_method_wins :
  let options := [("resourceId", VStr "Comments");
                  ("recordIds", VArr [VStr "1"; VStr "2"]);
                  ("actionName", VStr "delete"); ("method", VStr "DELETE")] in
  truthy (get options "method") = true
  /\ map (fun config => get config "method")
         (issued (bulkAction Examples.browser options (start (Some "sk=abc"))))
     = [VStr "DELETE"].
Proof. split; reflexivity. Qed.

(** C2, amended: for every call of [bulkAction], the issued request carries
    the [method] of the transport options when they have one; when they have
    none, its method is POST if [data] is truthy and GET otherwise. *)
Theorem bulkAction_method (h : Host) (options : obj) (c : option string) :
  NoDup (map fst options) ->
  forall config,
    In config (issued (bulkAction h options (start c))) ->
    get config "method"
    = match lookup "method" options with
      | Some method => method
      | None => VStr (if truthy (get options "data") then "POST" else "GET")
      end.
Proof. apply bulk_issued_method. Qed.

Lemma bulkAction_method_witness :
  exists config,
    issued (bulkAction Examples.browser Examples.delete_comments
              (start (Some "sk=abc"))) = [config]
    /\ get config "method" = VStr "POST".
Proof.
  eexists. split; [reflexivity|].
  apply (bulkAction_method Examples.browser Examples.delete_comments
           (Some "sk=abc")).
  - repeat constructor; simpl; intuition discriminate.
  - now left.
Defined.

(* ================================================================== *)
(** ** The CSRF header *)

Lemma params_for_gated (h : Host) (axiosParams ap : obj) (st : Store) :
  params_for h true axiosParams st = Some ap ->
  exists csrfToken st1,
    getToken h st = (Normal csrfToken, st1)
    /\ ap = with_csrf csrfToken axiosParams.
Proof.
  unfold params_for. destruct (getToken h st) as [[tok|e] st1]; simpl.
  - intros [= <-]. now exists tok, st1.
  - discriminate.
Qed.

Lemma literal_carries_token (h : Host) (c : option string)
  (url method : string) (axiosParams ap : obj) (data : value) :
  NoDup (map fst axiosParams) ->
  params_for h true axiosParams (start c) = Some ap ->
  carries_token h c (request_literal url method ap data).
Proof.
  intros Hnd P. destruct (params_for_gated _ _ _ _ P) as [tok [st1 [G ->]]].
  destruct (lookup_with_csrf_headers tok axiosParams) as [headers [H1 H2]].
  exists tok, st1, headers. repeat split; trivial.
  apply literal_spread; trivial; [|discriminate].
  now apply NoDup_with_csrf.
Qed.

Lemma gated_requests_carry_token (h : Host) (options : obj)
  (c : option string) :
  NoDup (map fst options) ->
  (truthy (get options "data") = true ->
   forall config, In config (issued (resourceAction h options (start c))) ->
                  carries_token h c config)
  /\ (truthy (get options "data") = true ->
      forall config, In config (issued (recordAction h options (start c))) ->
                     carries_token h c config)
  /\ (truthy (get options "method") || truthy (get options "data") = true ->
      forall config, In config (issued (bulkAction h options (start c))) ->
                     carries_token h c config).
Proof.
  intros Hnd. unfold issued.
  rewrite resourceAction_requests, recordAction_requests, bulkAction_requests.
  fold (bulk_gate options).
  repeat split; intros G config Hin; rewrite G in Hin;
    destruct (params_for _ _ _ _) as [ap|] eqn:P; try contradiction.
  - destruct Hin as [<-|[]].
    eapply literal_carries_token; [|exact P]. now apply NoDup_omit.
  - destruct Hin as [<-|[]].
    eapply literal_carries_token; [|exact P]. now apply NoDup_omit.
  - destruct (joined_ids _) as [joined|]; [|contradiction].
    destruct Hin as [<-|[]].
    destruct (literal_carries_token h c (bulk_url options) "POST" _ ap
                (get options "data") (NoDup_omit _ _ Hnd) P)
      as [tok [st1 [headers [H1 [H2 H3]]]]].
    exists tok, st1, headers. repeat split; trivial.
    now rewrite lookup_obj_set_other by discriminate.
Qed.


(** C4, as stated, fails: a call of [resourceAction] without [data] whose
    transport options name the method [POST] issues a POST request that
    carries no [X-Csrf-Token] header, although the cookie holds a token.  The
    token is attached on the computed method, which only [data] decides. *)
Lemma resourceAction_explicit_post_has_no_token :
  let options := [("resourceId", VStr "Comments"); ("actionName", VStr "new");
                  ("method", VStr "POST")] in
  exists config,
    issued (resourceAction Examples.browser options (start (Some "sk=abc")))
    = [config]
    /\ get config "method" = VStr "POST"
    /\ lookup "headers" config = None.
Proof. eexists. repeat split. Qed.

(** C4, amended: every request that [resourceAction] or [recordAction] issues
    for a call with truthy [data], and every request that [bulkAction] issues
    for a call with a truthy [method] or truthy [data] (the calls whose
    computed method is POST), carries the header [X-Csrf-Token] with the
    token [getToken] returned for this call, whatever header of that name the
    caller supplied. *)
Theorem post_shaped_requests_carry_token (h : Host) (options : obj)
  (c : option string) :
  NoDup (map fst options) ->
  (truthy (get options "data") = true ->
   forall config, In config (issued (resourceAction h options (start c))) ->
                  carries_token h c config)
  /\ (truthy (get options "data") = true ->
      forall config, In config (issued (recordAction h options (start c))) ->
                     carries_token h c config)
  /\ (truthy (get options "method") || truthy (get options "data") = true ->
      forall config, In config (issued (bulkAction h options (start c))) ->
                     carries_token h c config).
Proof. apply gated_requests_carry_token. Qed.

Lemma post_shaped_requests_carry_token_witness :
  exists config,
    issued (resourceAction Examples.browser Examples.forged_comment
              (start (Some "sk=abc")))
    = [config]
    /\ carries_token Examples.browser (Some "sk=abc") config
    /\ get config "headers"
       = VObj [("X-Csrf-Token", VStr "abc"); ("Accept", VStr "*/*")].
Proof.
  eexists. split; [reflexivity|]. split; [|reflexivity].
  assert (Hnd : NoDup (map fst Examples.forged_comment)).
  { repeat constructor; simpl; intuition discriminate. }
  destruct (post_shaped_requests_carry_token Examples.browser
              Examples.forged_comment (Some "sk=abc") Hnd) as [H _].
  apply H; [reflexivity | now left].
Defined.

(* ------------------------------------------------------------------ *)
(** *** An explicit method on a bulk action *)

Lemma only_weaken {A} (p q : event -> bool) (m : M A) :
  (forall e, p e = true -> q e = true) -> only p m -> only q m.
Proof.
  intros Hpq Hm st. destruct (Hm st) as [evs [E P]]. exists evs. split; trivial.
  rewrite forallb_forall in *. auto.
Qed.

Lemma grows_send (h : Host) (config : obj) : grows (send h config).
Proof.
  unfold grows, send.
  apply only_bind; [now apply only_emit|]. intros _.
  apply only_bind; [apply only_lift|]. intros response.
  apply only_bind; [|intros; apply only_ret].
  now apply (only_weaken _ _ _ (fun e _ => eq_refl)
               (quiet_checkResponse h response)).
Qed.

Lemma grows_join_recordIds (recordIds : value) :
  grows (join_recordIds recordIds).
Proof.
  unfold grows, join_recordIds.
  destruct (if truthy recordIds then recordIds else VArr []);
    (apply only_ret || apply only_throw).
Qed.

(** A gated bulk action starts with the token routine. *)
Lemma bulk_gated_starts_with_getToken (h : Host) (options : obj)
  (c : option string) :
  bulk_gate options = true ->
  exists evs,
    trace (snd (bulkAction h options (start c)))
    = (trace (snd (getToken h (start c))) ++ evs)%list.
Proof.
  intros G. unfold bulkAction. rewrite bulk_gate_computed, G.
  change (toUpperCase "POST" =? "POST") with true. cbv iota.
  unfold attach_csrf, bind at 1. unfold bind at 1.
  destruct (getToken h (start c)) as [[tok|e] st1]; simpl.
  - match goal with
    | |- context [bind ?m ?k st1] => assert (Hg : grows (bind m k))
    end.
    { apply only_bind; [apply grows_join_recordIds|].
      intros. apply grows_send. }
    destruct (Hg st1) as [evs [E _]]. now exists evs.
  - exists []. now rewrite app_nil_r.
Qed.

(** C10: a call of [bulkAction] whose transport options hold a truthy
    [method], and whose [data] is missing or falsy, still runs the token
    routine first (its computed method is POST); every request it then issues
    carries that token as [X-Csrf-Token] and is sent with the caller's method,
    because the spread of the transport options follows the computed method
    in the request literal. *)
Theorem bulkAction_explicit_method (h : Host) (options : obj)
  (c : option string) (method : value) :
  NoDup (map fst options) ->
  lookup "method" options = Some method ->
  truthy method = true ->
  truthy (get options "data") = false ->
  (exists evs,
      trace (snd (bulkAction h options (start c)))
      = (trace (snd (getToken h (start c))) ++ evs)%list)
  /\ forall config,
       In config (issued (bulkAction h options (start c))) ->
       get config "method" = method /\ carries_token h c config.
Proof.
  intros Hnd Hm Ht Hd.
  assert (G : bulk_gate options = true).
  { unfold bulk_gate, get at 1. now rewrite Hm, Ht. }
  split; [now apply bulk_gated_starts_with_getToken|].
  intros config Hin. split.
  - rewrite (bulk_issued_method h options c Hnd config Hin). now rewrite Hm.
  - destruct (gated_requests_carry_token h options c Hnd) as [_ [_ H]].
    now apply H.
Qed.

Lemma bulkAction_explicit_method_witness :
  let options := [("resourceId", VStr "Comments");
                  ("recordIds", VArr [VStr "1"; VStr "2"]);
                  ("actionName", VStr "delete"); ("method", VStr "post")] in
  exists config,
    issued (bulkAction Examples.browser options (start (Some ""))) = [config]
    /\ get config "method" = VStr "post"
    /\ carries_token Examples.browser (Some "") config
    /\ get config "headers" = VObj [("X-Csrf-Token", VStr "abc")].
Proof.
  intros options. eexists. split; [reflexivity|].
  assert (Hnd : NoDup (map fst options)).
  { repeat constructor; simpl; intuition discriminate. }
  destruct (bulkAction_explicit_method Examples.browser options (Some "")
              (VStr "post") Hnd eq_refl eq_refl eq_refl) as [_ H].
  destruct (H _ (or_introl eq_refl)) as [H1 H2].
  split; [exact H1|]. split; [exact H2 | reflexivity].
Defined.

(* ================================================================== *)
(** ** The token routine *)

Lemma append_assoc (a b c : string) : (a ++ b) ++ c = a ++ b ++ c.
Proof. induction a as [|x a IH]; simpl; [reflexivity | now rewrite IH]. Qed.

Lemma append_nil_r (a : string) : a ++ "" = a.
Proof. induction a as [|x a IH]; simpl; [reflexivity | now rewrite IH]. Qed.

(** The cookie string for a fresh token that lasts [n] seconds. *)
Lemma token_cookie_string (sk : value) (n : Z) :
  fold_left cookie_attribute
    (cookie_options (VObj (obj_set "max-age" (VNum n) [])))
    (encodeURIComponent "sk" ++ "=" ++ encodeURIComponent (to_string sk))
  = "sk=" ++ encodeURIComponent (to_string sk)
    ++ "; path=/; max-age=" ++ string_of_Z n.
Proof.
  change (cookie_options (VObj (obj_set "max-age" (VNum n) [])))
    with [("path", VStr "/"); ("max-age", VNum n)].
  unfold fold_left, cookie_attribute. cbn [is_true snd fst to_string].
  rewrite !append_assoc. reflexivity.
Qed.

Lemma getToken_cached (h : Host) (c : string) (token : value) :
  cookie_value "sk" c = Normal token -> truthy token = true ->
  getToken h (start (Some c))
  = (Normal token,
     mkStore (Some c) [Log ("tokenFromCookie " ++ to_string token)]).
Proof.
  intros Hc Ht. unfold getToken, getCookie, bind, read_cookie, lift, emit, start.
  cbn [cookie trace]. rewrite Hc. cbn [cookie trace app]. now rewrite Ht.
Qed.

Lemma getToken_fetched (h : Host) (c : string) (t sk : value)
  (response body : obj) (n : Z) :
  cookie_value "sk" c = Normal t -> truthy t = false ->
  csrf_get h = Normal (VObj response) ->
  get response "data" = VObj body ->
  get body "sk" = sk ->
  get body "max-age-seconds" = VNum n ->
  safe_integer n ->
  let written := "sk=" ++ encodeURIComponent (to_string sk)
                 ++ "; path=/; max-age=" ++ string_of_Z n in
  getToken h (start (Some c))
  = (Normal sk,
     mkStore (Some (cookie_assigned h c written))
       [Log ("tokenFromCookie " ++ to_string t); CsrfGet "";
        CookieWrite written;
        Log ("got new token, set token " ++ cookie_assigned h c written)]).
Proof.
  intros Hc Ht Hr Hd Hsk Hn _ written.
  unfold getToken, getCookie, bind, read_cookie, lift, emit, start, try_catch.
  cbn [cookie trace]. rewrite Hc. cbn [cookie trace app]. rewrite Ht, Hr.
  unfold get_prop, ret. cbn [own_props]. rewrite Hd. cbn [own_props].
  rewrite Hsk, Hn. unfold setCookie, write_cookie. cbn [cookie trace app].
  rewrite token_cookie_string. reflexivity.
Qed.

Lemma no_token_value (c : string) :
  no_token c ->
  exists t, cookie_value "sk" c = Normal t /\ truthy t = false.
Proof.
  unfold cookie_value. intros [-> | ->].
  - now exists VUndefined.
  - now exists (VStr "").
Qed.

(** C3, as stated, fails: with the cookie [sk] present but empty, [getToken]
    does not return the cookie's value; it calls the token endpoint and
    returns the fresh token.  With the cookie present but not decodable,
    [getToken] returns nothing: the [URIError] of [decodeURIComponent]
    escapes. *)
Lemma getToken_empty_cookie_fetches :
  (cookie_match "sk" "theme=dark; sk=; lang=en" = Some ""
   /\ getToken Examples.browser (start (Some "theme=dark; sk=; lang=en"))
      = (Normal (VStr "abc"),
         mkStore (Some "sk=abc")
           [Log "tokenFromCookie "; CsrfGet "";
            CookieWrite "sk=abc; path=/; max-age=3600";
            Log "got new token, set token sk=abc"]))
  /\ (cookie_match "sk" "theme=dark; sk=100%" = Some "100%"
      /\ getToken Examples.browser (start (Some "theme=dark; sk=100%"))
         = (Throw (VError "URIError" "URI malformed"),
            start (Some "theme=dark; sk=100%"))).
Proof. repeat split. Qed.

(** C3, amended: when cookie [sk] is present with a non-empty value that
    [decodeURIComponent] accepts, [getToken] returns the decoded value and
    performs no network call;
    when cookie [sk] is absent or empty and the token endpoint answers with a
    body holding [sk] and a [max-age-seconds] that is a safe integer, it
    performs exactly one request to the token endpoint, sets cookie [sk] to
    the returned [sk] value with max-age equal to the response's
    [max-age-seconds], and returns that value. *)
Theorem getToken_cookie_or_endpoint (h : Host) (c : string) :
  (forall raw token,
      cookie_match "sk" c = Some raw ->
      decodeURIComponent raw = Some token ->
      token <> "" ->
      getToken h (start (Some c))
      = (Normal (VStr token),
         mkStore (Some c) [Log ("tokenFromCookie " ++ token)]))
  /\ (forall response body n,
         no_token c ->
         csrf_get h = Normal (VObj response) ->
         get response "data" = VObj body ->
         get body "max-age-seconds" = VNum n ->
         safe_integer n ->
         let written := "sk=" ++ encodeURIComponent (to_string (get body "sk"))
                        ++ "; path=/; max-age=" ++ string_of_Z n in
         exists seen,
           getToken h (start (Some c))
           = (Normal (get body "sk"),
              mkStore (Some (cookie_assigned h c written))
                [Log ("tokenFromCookie " ++ seen); CsrfGet "";
                 CookieWrite written;
                 Log ("got new token, set token "
                      ++ cookie_assigned h c written)])).
Proof.
  split.
  - intros raw token Hm Hd Hne.
    apply (getToken_cached h c (VStr token)).
    + unfold cookie_value. now rewrite Hm, Hd.
    + simpl. now destruct (String.eqb_spec token "").
  - intros response body n Hno Hr Hd Hn Hsafe written.
    destruct (no_token_value c Hno) as [t [Hc Ht]].
    exists (to_string t). now apply (getToken_fetched h c t _ response body n).
Qed.

Lemma getToken_cookie_or_endpoint_witness :
  getToken Examples.browser (start (Some "theme=dark; sk=tok%20en"))
  = (Normal (VStr "tok en"),
     mkStore (Some "theme=dark; sk=tok%20en") [Log "tokenFromCookie tok en"])
  /\ exists seen,
       getToken Examples.browser (start (Some "theme=dark"))
       = (Normal (VStr "abc"),
          mkStore (Some "sk=abc")
            [Log ("tokenFromCookie " ++ seen); CsrfGet "";
             CookieWrite "sk=abc; path=/; max-age=3600";
             Log "got new token, set token sk=abc"]).
Proof.
  split.
  - destruct (getToken_cookie_or_endpoint Examples.browser
                "theme=dark; sk=tok%20en") as [H _].
    apply (H "tok%20en" "tok en"); [reflexivity | reflexivity | discriminate].
  - destruct (getToken_cookie_or_endpoint Examples.browser "theme=dark")
      as [_ H].
    apply (H [("data", VObj [("sk", VStr "abc"); ("max-age-seconds", VNum 3600)])]
             [("sk", VStr "abc"); ("max-age-seconds", VNum 3600)] 3600%Z);
      [now left | reflexivity | reflexivity | reflexivity
       | unfold safe_integer; lia].
Defined.

(* ------------------------------------------------------------------ *)
(** *** A failing token endpoint *)

Lemma getToken_failed (h : Host) (c : string) (t e : value) :
  cookie_value "sk" c = Normal t -> truthy t = false ->
  csrf_get h = Throw e ->
  getToken h (start (Some c))
  = (Throw (VError "Error" ("CSRF token error: " ++ to_string e)),
     mkStore (Some c) [Log ("tokenFromCookie " ++ to_string t); CsrfGet ""]).
Proof.
  intros Hc Ht Hr.
  unfold getToken, getCookie, bind, read_cookie, lift, emit, start, try_catch.
  cbn [cookie trace]. rewrite Hc. cbn [cookie trace app]. now rewrite Ht, Hr.
Qed.

(** A gated action whose token routine throws rejects with the same error and
    leaves the store as the token routine left it. *)
Lemma gated_action_rejects (h : Host) (options : obj) (st st1 : Store)
  (e : value) :
  getToken h st = (Throw e, st1) ->
  (truthy (get options "data") = true ->
   resourceAction h options st = (Throw e, st1))
  /\ (truthy (get options "data") = true ->
      recordAction h options st = (Throw e, st1))
  /\ (bulk_gate options = true -> bulkAction h options st = (Throw e, st1)).
Proof.
  intros G. repeat split; intros Hg.
  - unfold resourceAction. rewrite Hg. cbv iota.
    change ("POST" =? "POST") with true. cbv iota.
    unfold attach_csrf, bind at 1. unfold bind at 1. now rewrite G.
  - unfold recordAction. rewrite Hg. cbv iota.
    change ("POST" =? "POST") with true. cbv iota.
    unfold attach_csrf, bind at 1. unfold bind at 1. now rewrite G.
  - unfold bulkAction. rewrite bulk_gate_computed, Hg.
    change (toUpperCase "POST" =? "POST") with true. cbv iota.
    unfold attach_csrf, bind at 1. unfold bind at 1. now rewrite G.
Qed.

(** C5: when the request to the token endpoint fails (cookie [sk] holds no
    token, the endpoint rejects with [e]), [getToken] calls the endpoint once
    and throws one generic [Error] whose message is [CSRF token error: ]
    followed by the printed cause; nothing is written to the cookie, and an
    action that needed the token rejects with that same error without issuing
    its request. *)
Theorem getToken_endpoint_failure (h : Host) (c : string) (e : value) :
  no_token c ->
  csrf_get h = Throw e ->
  let wrapped := VError "Error" ("CSRF token error: " ++ to_string e) in
  exists seen,
    let st := mkStore (Some c) [Log ("tokenFromCookie " ++ seen); CsrfGet ""] in
    getToken h (start (Some c)) = (Throw wrapped, st)
    /\ forall options,
         (truthy (get options "data") = true ->
          resourceAction h options (start (Some c)) = (Throw wrapped, st)
          /\ recordAction h options (start (Some c)) = (Throw wrapped, st))
         /\ (truthy (get options "method") || truthy (get options "data") = true ->
             bulkAction h options (start (Some c)) = (Throw wrapped, st)).
Proof.
  intros Hno Hr wrapped.
  destruct (no_token_value c Hno) as [t [Hc Ht]].
  exists (to_string t). intros st.
  pose proof (getToken_failed h c t e Hc Ht Hr) as G. split; [exact G|].
  intros options.
  destruct (gated_action_rejects h options _ _ _ G) as [H1 [H2 H3]].
  split; [intros Hd; split; auto | exact H3].
Qed.

Lemma getToken_endpoint_failure_witness :
  exists seen,
    getToken Examples.offline (start (Some "theme=dark"))
    = (Throw (VError "Error" "CSRF token error: Error: Network Error"),
       mkStore (Some "theme=dark")
         [Log ("tokenFromCookie " ++ seen); CsrfGet ""]).
Proof.
  destruct (getToken_endpoint_failure Examples.offline "theme=dark"
              (VError "Error" "Network Error") (or_introl eq_refl) eq_refl)
    as [seen [H _]].
  exists seen. exact H.
Defined.

(* ================================================================== *)
(** ** Record identifiers of a bulk action *)

Lemma array_join_strings (sep : string) (ids : list string) :
  array_join sep (map VStr ids) = String.concat sep ids.
Proof.
  unfold array_join. f_equal. induction ids as [|x r IH]; simpl;
    [reflexivity | now rewrite IH].
Qed.

(** C6: in every request that [bulkAction] issues, the query parameter
    [recordIds] is the list of record identifiers joined with commas; for the
    empty list it is the empty string. *)
Theorem bulkAction_recordIds (h : Host) (options : obj) (c : option string)
  (ids : list string) :
  get options "recordIds" = VArr (map VStr ids) ->
  forall config,
    In config (issued (bulkAction h options (start c))) ->
    get config "params" = VParams [("recordIds", String.concat "," ids)]
    /\ (ids = [] -> get config "params" = VParams [("recordIds", "")]).
Proof.
  intros Hids config Hin.
  assert (E : get config "params"
              = VParams [("recordIds", String.concat "," ids)]).
  { unfold issued in Hin. rewrite bulkAction_requests, Hids in Hin.
    destruct (params_for _ _ _ _) as [ap|]; [|contradiction].
    simpl in Hin. destruct Hin as [<-|[]].
    now rewrite get_obj_set_same, array_join_strings. }
  split; [exact E|]. intros ->. exact E.
Qed.

Lemma bulkAction_recordIds_witness :
  (exists config,
      issued (bulkAction Examples.browser Examples.delete_comments
                (start (Some ""))) = [config]
      /\ get config "params" = VParams [("recordIds", "1,2")])
  /\ (exists config,
         issued (bulkAction Examples.browser Examples.delete_none
                   (start (Some ""))) = [config]
         /\ get config "params" = VParams [("recordIds", "")]).
Proof.
  split; eexists; (split; [reflexivity|]).
  - destruct (bulkAction_recordIds Examples.browser Examples.delete_comments
                (Some "") ["1"; "2"] eq_refl _ (or_introl eq_refl)) as [H _].
    exact H.
  - destruct (bulkAction_recordIds Examples.browser Examples.delete_none
                (Some "") [] eq_refl _ (or_introl eq_refl)) as [_ H].
    exact (H eq_refl).
Defined.

(* ================================================================== *)
(** ** The URL of a resource action *)

(** C8, as stated, fails: a call of [resourceAction] whose transport options
    hold a [url] sends the request to that URL, not to the path built from
    the resource and the action; and a query that is provided as the empty
    string adds no path segment. *)
Lemma resourceAction_explicit_url_wins :
  (let options := [("resourceId", VStr "Comments"); ("actionName", VStr "list");
                   ("url", VStr "/api/dashboard")] in
   map (fun config => get config "url")
       (issued (resourceAction Examples.browser options (start (Some ""))))
   = [VStr "/api/dashboard"])
  /\ (let options := [("resourceId", VStr "Comments");
                      ("actionName", VStr "search"); ("query", VStr "")] in
      map (fun config => get config "url")
          (issued (resourceAction Examples.browser options (start (Some ""))))
      = [VStr "/api/resources/Comments/actions/search"]).
Proof. split; reflexivity. Qed.

(** C8, amended: for every call of [resourceAction] whose transport options
    have no [url] property of their own, the URL of the request is
    [/api/resources/{resourceId}/actions/{actionName}], and when a query is
    provided (truthy) its [encodeURIComponent] encoding is appended as one
    more path segment. *)
Theorem resourceAction_url (h : Host) (options : obj) (c : option string) :
  lookup "url" options = None ->
  forall config,
    In config (issued (resourceAction h options (start c))) ->
    let path := "/api/resources/" ++ to_string (get options "resourceId")
                ++ "/actions/" ++ to_string (get options "actionName") in
    get config "url"
    = VStr (if truthy (get options "query")
            then path ++ "/"
                 ++ encodeURIComponent (to_string (get options "query"))
            else path).
Proof.
  intros Hu config Hin path. unfold issued in Hin.
  rewrite resourceAction_requests in Hin.
  destruct (params_for _ _ _ _) as [ap|] eqn:P; [|contradiction].
  destruct Hin as [<-|[]].
  unfold get at 1. rewrite literal_own; [reflexivity| |discriminate].
  rewrite (params_for_lookup _ _ _ _ _ _ P) by discriminate.
  now rewrite lookup_omit.
Qed.

Lemma resourceAction_url_witness :
  let options := [("resourceId", VStr "Comments"); ("actionName", VStr "search");
                  ("query", VStr "hello world/2")] in
  exists config,
    issued (resourceAction Examples.browser options (start (Some "")))
    = [config]
    /\ get config "url"
       = VStr "/api/resources/Comments/actions/search/hello%20world%2F2".
Proof.
  intros options. eexists. split; [reflexivity|].
  apply (resourceAction_url Examples.browser options (Some "") eq_refl _
           (or_introl eq_refl)).
Defined.

(* ================================================================== *)
(** ** Searching records *)

Lemma issued_bind_quiet {A B} (m : M A) (k : A -> M B) (st : Store) :
  (forall a, quiet (k a)) -> issued (bind m k st) = issued (m st).
Proof.
  intros Hk. unfold issued, bind. destruct (m st) as [[a|e] st1]; simpl.
  - now apply quiet_requests.
  - reflexivity.
Qed.

Lemma quiet_data_records (response : value) : quiet (data_records response).
Proof.
  unfold quiet, data_records. apply only_bind; intros; apply only_get_prop.
Qed.

Lemma resourceAction_ungated (h : Host) (options : obj) (st : Store) :
  truthy (get options "data") = false ->
  resourceAction h options st
  = send h (request_literal (resource_url options) "GET"
              (omit ["resourceId"; "actionName"; "data"; "query"] options)
              (get options "data")) st.
Proof.
  intros Hd. unfold resourceAction, resource_url, request_literal.
  rewrite Hd. reflexivity.
Qed.

Lemma send_resolves (h : Host) (config : obj) (response : value) (st : Store) :
  request h config = Normal response ->
  (forall s, fst (checkResponse h response s) = Normal tt) ->
  exists st1, send h config st = (Normal response, st1).
Proof.
  intros Hr Hc. unfold send, bind, emit, lift. simpl. rewrite Hr.
  specialize (Hc (mkStore (cookie st) (trace st ++ [Request config]))).
  destruct (checkResponse h response _) as [[[]|e] st1]; simpl in Hc;
    [now exists st1 | discriminate].
Qed.

Lemma searchRecords_browser (h : Host) (resourceId query searchProperty : value)
  (st : Store) :
  isOnServer h = false ->
  searchRecords h resourceId query searchProperty st
  = (response <- resourceAction h
                   (search_options resourceId query searchProperty) ;;
     checkResponse h response ;;;
     data_records response) st.
Proof.
  intros Hs. unfold searchRecords, search_options. rewrite Hs.
  now destruct (truthy searchProperty).
Qed.

(** C7: outside a browser [searchRecords] returns the empty list and does
    nothing else; in a browser it issues exactly one request, a GET for the
    resource action [search] with the encoded query as last path segment,
    and, when that request resolves and the session check passes, returns
    [response.data.records]. *)
Theorem searchRecords_behaviour (h : Host)
  (resourceId query searchProperty : value) :
  (isOnServer h = true ->
   forall st,
     searchRecords h resourceId query searchProperty st
     = (Normal (VArr []), st))
  /\ (isOnServer h = false ->
      forall c, exists config,
        issued (searchRecords h resourceId query searchProperty (start c))
        = [config]
        /\ get config "method" = VStr "GET"
        /\ (let path := "/api/resources/" ++ to_string resourceId
                        ++ "/actions/search" in
            get config "url"
            = VStr (if truthy query
                    then path ++ "/" ++ encodeURIComponent (to_string query)
                    else path))
        /\ forall response,
             request h config = Normal response ->
             (forall s, fst (checkResponse h response s) = Normal tt) ->
             exists st,
               searchRecords h resourceId query searchProperty (start c)
               = data_records response st).
Proof.
  split.
  - intros Hs st. unfold searchRecords. now rewrite Hs.
  - intros Hs c.
    set (options := search_options resourceId query searchProperty).
    assert (Hd : truthy (get options "data") = false).
    { unfold options, search_options. now destruct (truthy searchProperty). }
    exists (request_literal (resource_url options) "GET"
              (omit ["resourceId"; "actionName"; "data"; "query"] options)
              (get options "data")).
    rewrite searchRecords_browser by assumption. fold options.
    repeat split.
    + rewrite issued_bind_quiet.
      * rewrite resourceAction_ungated by assumption. unfold issued.
        now rewrite send_requests.
      * intros response. apply only_bind; [apply quiet_checkResponse|].
        intros _. apply quiet_data_records.
    + unfold options, search_options. now destruct (truthy searchProperty).
    + unfold options, search_options, resource_url.
      destruct (truthy searchProperty); destruct (truthy query) eqn:Q;
        unfold get; simpl lookup; rewrite ?Q; reflexivity.
    + intros response Hr Hc. unfold bind at 1.
      rewrite resourceAction_ungated by assumption.
      destruct (send_resolves h _ response (start c) Hr Hc) as [st1 ->].
      unfold bind at 1. specialize (Hc st1).
      destruct (checkResponse h response st1) as [[[]|e] st2]; simpl in Hc;
        [now exists st2 | discriminate].
Qed.

Lemma searchRecords_behaviour_witness :
  searchRecords Examples.server (VStr "Comments") (VStr "hello") VUndefined
    (start None)
  = (Normal (VArr []), start None)
  /\ exists config,
       issued (searchRecords Examples.browser (VStr "Comments") (VStr "hello")
                 VUndefined (start (Some "")))
       = [config]
       /\ get config "method" = VStr "GET"
       /\ get config "url" = VStr "/api/resources/Comments/actions/search/hello"
       /\ fst (searchRecords Examples.browser (VStr "Comments") (VStr "hello")
                 VUndefined (start (Some "")))
          = Normal (VArr [VObj [("id", VStr "1")]]).
Proof.
  destruct (searchRecords_behaviour Examples.server (VStr "Comments")
              (VStr "hello") VUndefined) as [H _].
  split; [exact (H eq_refl (start None))|].
  destruct (searchRecords_behaviour Examples.browser (VStr "Comments")
              (VStr "hello") VUndefined) as [_ H'].
  destruct (H' eq_refl (Some "")) as [config [H1 [H2 [H3 H4]]]].
  exists config.
  split; [exact H1|]. split; [exact H2|]. split; [exact H3|].
  injection H1 as <-.
  destruct (H4 Examples.api_response eq_refl (fun s => eq_refl)) as [st ->].
  reflexivity.
Defined.

(* ================================================================== *)
(** ** Writing a cookie *)

Lemma cookie_attribute_text (updatedCookie : string) (option : string * value) :
  cookie_attribute updatedCookie option = updatedCookie ++ attribute_text option.
Proof.
  unfold cookie_attribute, attribute_text. destruct (is_true (snd option)).
  - now rewrite append_nil_r.
  - now rewrite !append_assoc.
Qed.

Lemma concat_empty_cons (x : string) (r : list string) :
  String.concat "" (x :: r) = x ++ String.concat "" r.
Proof.
  destruct r as [|y r]; simpl; [now rewrite append_nil_r | reflexivity].
Qed.

Lemma fold_cookie_attribute (options : obj) (updatedCookie : string) :
  fold_left cookie_attribute options updatedCookie
  = updatedCookie ++ String.concat "" (map attribute_text options).
Proof.
  revert updatedCookie. induction options as [|o r IH]; intros updatedCookie.
  - simpl. now rewrite append_nil_r.
  - cbn [fold_left map]. rewrite IH, cookie_attribute_text, concat_empty_cons.
    now rewrite append_assoc.
Qed.

Lemma own_props_default (options : value) :
  own_props (match options with VUndefined => VObj [] | _ => options end)
  = own_props options.
Proof. now destruct options. Qed.

(** What the options seen by the loop hold under each name. *)
Lemma lookup_cookie_options (options : value) (k : string) :
  NoDup (map fst (own_props options)) ->
  lookup k (cookie_options options)
  = match (match lookup k (own_props options) with
           | Some v => Some v
           | None => lookup k [("path", VStr "/")]
           end) with
    | Some (VDate d) =>
        if k =? "expires" then Some (VStr (toUTCString d)) else Some (VDate d)
    | found => found
    end.
Proof.
  intros Hnd. unfold cookie_options.
  set (given := match options with VUndefined => VObj [] | _ => options end).
  assert (Hgiven : own_props given = own_props options)
    by apply own_props_default.
  set (merged := spread given (obj_set "path" (VStr "/") [])).
  assert (L : forall k', lookup k' merged
                         = match lookup k' (own_props options) with
                           | Some v => Some v
                           | None => lookup k' [("path", VStr "/")]
                           end).
  { intros k'. unfold merged. destruct (lookup k' (own_props options)) eqn:E.
    - apply lookup_spread_present; now rewrite Hgiven.
    - apply lookup_spread_absent. now rewrite Hgiven. }
  rewrite <- L.
  destruct (String.eqb_spec k "expires") as [->|Hne].
  - unfold get. destruct (lookup "expires" merged) as [[]|] eqn:E;
      rewrite ?E; try reflexivity.
    apply lookup_obj_set_same.
  - assert (lookup k (match get merged "expires" with
                      | VDate d => obj_set "expires" (VStr (toUTCString d)) merged
                      | _ => merged
                      end) = lookup k merged) as ->.
    { destruct (get merged "expires"); try reflexivity.
      now apply lookup_obj_set_other. }
    now destruct (lookup k merged) as [[]|].
Qed.

(** C9: [setCookie] assigns to [document.cookie] the encoded name, an equals
    sign and the encoded value, followed by one attribute for each option;
    [path] is [/] when the caller gives none, an [expires] that is a [Date]
    appears as its UTC string, and an option whose value is [true] appears
    as its bare name. *)
Theorem setCookie_writes (h : Host) (name : string) (val options : value)
  (c : string) :
  NoDup (map fst (own_props options)) ->
  let attributes := cookie_options options in
  let written := encodeURIComponent name ++ "="
                 ++ encodeURIComponent (to_string val)
                 ++ String.concat "" (map attribute_text attributes) in
  setCookie h name val options (start (Some c))
  = (Normal tt, mkStore (Some (cookie_assigned h c written)) [CookieWrite written])
  /\ (lookup "path" (own_props options) = None ->
      In ("path", VStr "/") attributes
      /\ attribute_text ("path", VStr "/") = "; path=/")
  /\ (forall d,
         lookup "expires" (own_props options) = Some (VDate d) ->
         In ("expires", VStr (toUTCString d)) attributes
         /\ attribute_text ("expires", VStr (toUTCString d))
            = "; expires=" ++ toUTCString d)
  /\ (forall flag,
         lookup flag (own_props options) = Some (VBool true) ->
         In (flag, VBool true) attributes
         /\ attribute_text (flag, VBool true) = "; " ++ flag).
Proof.
  intros Hnd attributes written. repeat split.
  - unfold setCookie, write_cookie, start. cbn [cookie trace app].
    fold attributes. rewrite fold_cookie_attribute, append_assoc.
    reflexivity.
  - apply lookup_in. unfold attributes.
    rewrite lookup_cookie_options by assumption. now rewrite H.
  - apply lookup_in. unfold attributes.
    rewrite lookup_cookie_options by assumption. now rewrite H.
  - apply lookup_in. unfold attributes.
    rewrite lookup_cookie_options by assumption. now rewrite H.
  - unfold attribute_text. simpl. now rewrite append_nil_r.
Qed.

Lemma setCookie_writes_witness :
  let options :=
    VObj [("expires", VDate (mkDate "Thu, 01 Jan 2026 00:00:00 GMT"
                               "Thu Jan 01 2026 01:00:00 GMT+0100"));
          ("secure", VBool true)] in
  setCookie Examples.browser "user name" (VStr "a;b") options (start (Some ""))
  = (Normal tt,
     mkStore (Some "user%20name=a%3Bb")
       [CookieWrite
          "user%20name=a%3Bb; path=/; expires=Thu, 01 Jan 2026 00:00:00 GMT; secure"]).
Proof.
  intros options.
  assert (Hnd : NoDup (map fst (own_props options))).
  { repeat constructor; simpl; intuition discriminate. }
  destruct (setCookie_writes Examples.browser "user name" (VStr "a;b") options
              "" Hnd) as [H _].
  exact H.
Defined.

(* ================================================================== *)
(** ** Encoding and decoding *)

Lemma byte_cases (P : ascii -> Prop) :
  (forall b0 b1 b2 b3 b4 b5 b6 b7, P (Ascii b0 b1 b2 b3 b4 b5 b6 b7)) ->
  forall c, P c.
Proof. intros H [b0 b1 b2 b3 b4 b5 b6 b7]. apply H. Qed.

Ltac each_byte c :=
  pattern c; apply byte_cases;
  intros [|] [|] [|] [|] [|] [|] [|] [|]; vm_compute.

Lemma unreserved_ascii (c : ascii) :
  uri_unreserved c = true -> (N_of_ascii c <? 128)%N = true.
Proof. each_byte c; intros; congruence. Qed.

Lemma unreserved_not_percent (c : ascii) :
  uri_unreserved c = true -> Ascii.eqb c "%" = false.
Proof. each_byte c; intros; congruence. Qed.

Lemma hex_digits_byte (c : ascii) :
  hex_value (hex_digit (N_of_ascii c / 16)) = Some (N_of_ascii c / 16)%N
  /\ hex_value (hex_digit (N_of_ascii c mod 16)) = Some (N_of_ascii c mod 16)%N
  /\ (16 * (N_of_ascii c / 16) + N_of_ascii c mod 16 = N_of_ascii c)%N.
Proof. each_byte c; repeat split. Qed.

Lemma uri_items_escape (hi lo : ascii) (r : string) :
  uri_items (String "%" (String hi (String lo r)))
  = match hex_value hi, hex_value lo, uri_items r with
    | Some x, Some y, Some items => Some (Oct (16 * x + y) :: items)
    | _, _, _ => None
    end.
Proof. reflexivity. Qed.

Lemma uri_items_byte (c : ascii) (r : string) :
  uri_items ((if uri_unreserved c then String c "" else percent_byte c) ++ r)
  = option_map (cons (item_of c)) (uri_items r).
Proof.
  unfold item_of. destruct (uri_unreserved c) eqn:U.
  - cbn [append uri_items]. now rewrite (unreserved_not_percent c U).
  - unfold percent_byte. cbn [append]. rewrite uri_items_escape.
    destruct (hex_digits_byte c) as [-> [-> ->]].
    now destruct (uri_items r).
Qed.

Lemma uri_items_encode (s : string) :
  uri_items (encodeURIComponent s) = Some (map item_of (list_ascii_of_string s)).
Proof.
  induction s as [|c r IH]; [reflexivity|].
  cbn [encodeURIComponent list_ascii_of_string map].
  now rewrite uri_items_byte, IH.
Qed.

Lemma item_of_high (c : ascii) :
  (N_of_ascii c <? 128)%N = false -> item_of c = Oct (N_of_ascii c).
Proof.
  intros H. unfold item_of. destruct (uri_unreserved c) eqn:U; [|reflexivity].
  apply unreserved_ascii in U. congruence.
Qed.

Lemma cont_high (c : ascii) :
  is_cont (N_of_ascii c) = true -> (N_of_ascii c <? 128)%N = false.
Proof. each_byte c; intros; congruence. Qed.

Lemma item_of_cont (c : ascii) :
  is_cont (N_of_ascii c) = true -> item_of c = Oct (N_of_ascii c).
Proof. intros H. now apply item_of_high, cont_high. Qed.

Lemma uri_octets_low (c : ascii) (r : list uri_item) :
  (N_of_ascii c <? 128)%N = true ->
  uri_octets (item_of c :: r) = option_map (String c) (uri_octets r).
Proof.
  intros H. unfold item_of. destruct (uri_unreserved c); cbn [uri_octets].
  - reflexivity.
  - now rewrite H, ascii_N_embedding.
Qed.

(** Decoding undoes encoding on every well-formed string. *)
Lemma uri_octets_utf8 (n : nat) :
  forall s, String.length s <= n -> utf8 s = true ->
            uri_octets (map item_of (list_ascii_of_string s)) = Some s.
Proof.
  induction n as [|n IH]; intros s Hlen Hs.
  - destruct s; [reflexivity | simpl in Hlen; lia].
  - destruct s as [|c r]; [reflexivity|].
    cbn [utf8] in Hs. cbn [list_ascii_of_string map]. simpl in Hlen.
    destruct (N_of_ascii c <? 128)%N eqn:E1.
    { rewrite uri_octets_low by assumption. rewrite IH; [reflexivity|lia|assumption]. }
    rewrite (item_of_high c E1).
    destruct ((194 <=? N_of_ascii c) && (N_of_ascii c <=? 223))%N eqn:E2.
    { destruct r as [|c1 r1]; [discriminate|].
      apply andb_prop in Hs as [H1 Hs]. simpl in Hlen.
      cbn [list_ascii_of_string map]. rewrite (item_of_cont c1 H1).
      cbn [uri_octets]. rewrite E1, E2, H1, IH by (assumption || lia).
      cbn [option_map]. unfold oct_char. cbn [append].
      now rewrite !ascii_N_embedding. }
    destruct ((224 <=? N_of_ascii c) && (N_of_ascii c <=? 239))%N eqn:E3.
    { destruct r as [|c1 [|c2 r2]]; try discriminate.
      apply andb_prop in Hs as [Hc Hs]. simpl in Hlen.
      pose proof Hc as Hc'.
      apply andb_prop in Hc' as [Hc' _]. apply andb_prop in Hc' as [Hc' _].
      apply andb_prop in Hc' as [H1 H2].
      cbn [list_ascii_of_string map].
      rewrite (item_of_cont c1 H1), (item_of_cont c2 H2).
      cbn [uri_octets]. rewrite E1, E2, E3, Hc, IH by (assumption || lia).
      cbn [option_map]. unfold oct_char. cbn [append].
      now rewrite !ascii_N_embedding. }
    destruct ((240 <=? N_of_ascii c) && (N_of_ascii c <=? 244))%N eqn:E4;
      [|discriminate].
    destruct r as [|c1 [|c2 [|c3 r3]]]; try discriminate.
    apply andb_prop in Hs as [Hc Hs]. simpl in Hlen.
    pose proof Hc as Hc'.
    apply andb_prop in Hc' as [Hc' _]. apply andb_prop in Hc' as [Hc' _].
    apply andb_prop in Hc' as [Hc' H3]. apply andb_prop in Hc' as [H1 H2].
    cbn [list_ascii_of_string map].
    rewrite (item_of_cont c1 H1), (item_of_cont c2 H2), (item_of_cont c3 H3).
    cbn [uri_octets]. rewrite E1, E2, E3, E4, Hc, IH by (assumption || lia).
    cbn [option_map]. unfold oct_char. cbn [append].
    now rewrite !ascii_N_embedding.
Qed.

Lemma decode_encode (s : string) :
  utf8 s = true -> decodeURIComponent (encodeURIComponent s) = Some s.
Proof.
  intros H. unfold decodeURIComponent. rewrite uri_items_encode.
  now apply (uri_octets_utf8 (String.length s)).
Qed.

Lemma encoded_byte_clean (x c : ascii) :
  delimiter x = true ->
  has_char x (if uri_unreserved c then String c "" else percent_byte c) = false.
Proof.
  unfold delimiter. cbn [existsb]. rewrite !orb_true_iff.
  intros [H|[H|[H|[H|[H|[H|[H|[H|H]]]]]]]]; try discriminate;
    apply Ascii.eqb_eq in H; subst x; each_byte c; reflexivity.
Qed.

Lemma has_char_app (x : ascii) (a b : string) :
  has_char x (a ++ b) = has_char x a || has_char x b.
Proof.
  induction a as [|c a IH]; simpl; [reflexivity|].
  now rewrite IH, orb_assoc.
Qed.

Lemma encoded_clean (x : ascii) (s : string) :
  delimiter x = true -> has_char x (encodeURIComponent s) = false.
Proof.
  intros Hx. induction s as [|c r IH]; [reflexivity|].
  cbn [encodeURIComponent]. now rewrite has_char_app, encoded_byte_clean, IH.
Qed.

(* ================================================================== *)
(** ** Reading a cookie jar *)

Lemma starts_with_app (p r : string) : starts_with p (p ++ r) = Some r.
Proof.
  induction p as [|c p IH]; [now destruct r|].
  cbn [append starts_with]. now rewrite Ascii.eqb_refl.
Qed.

(** A name followed by an equals sign is a prefix of a pair exactly when it
    is the name of the pair. *)
Lemma starts_with_name (name n rest : string) :
  has_char "=" name = false -> has_char "=" n = false ->
  starts_with (name ++ "=") (n ++ "=" ++ rest)
  = if n =? name then Some rest else None.
Proof.
  revert n. induction name as [|a name IH]; intros n Hname Hn.
  - destruct n as [|b n]; [reflexivity|].
    cbn [append starts_with has_char] in *.
    apply orb_false_elim in Hn as [Hb _].
    rewrite Ascii.eqb_sym. now rewrite Hb.
  - cbn [has_char] in Hname. apply orb_false_elim in Hname as [Ha Hname].
    destruct n as [|b n].
    + cbn [append starts_with]. now rewrite Ha.
    + cbn [has_char] in Hn. apply orb_false_elim in Hn as [Hb Hn].
      cbn [append starts_with String.eqb].
      rewrite (Ascii.eqb_sym b a).
      destruct (Ascii.eqb a b); [now apply IH | reflexivity].
Qed.

Lemma until_semicolon_stop (v rest : string) :
  has_char ";" v = false -> rest = "" \/ (exists r, rest = String ";" r) ->
  until_semicolon (v ++ rest) = v.
Proof.
  intros Hv Hrest. induction v as [|c v IH].
  - destruct Hrest as [->|[r ->]]; reflexivity.
  - cbn [has_char] in Hv. apply orb_false_elim in Hv as [Hc Hv].
    cbn [append until_semicolon]. now rewrite Hc, IH.
Qed.

Lemma cookie_later_skip (name w rest : string) :
  has_char ";" w = false ->
  cookie_later name (w ++ rest) = cookie_later name rest.
Proof.
  intros Hw. induction w as [|c w IH]; [reflexivity|].
  cbn [has_char] in Hw. apply orb_false_elim in Hw as [Hc Hw].
  cbn [append cookie_later starts_with].
  rewrite Ascii.eqb_sym, Hc. now apply IH.
Qed.

Lemma jar_string_cons (p : string * string) (r : list (string * string)) :
  jar_string (p :: r) = pair_text p ++ jar_rest r.
Proof.
  unfold jar_string. revert p. induction r as [|q r IH]; intros p.
  - simpl. now rewrite append_nil_r.
  - change (String.concat "; " (map pair_text (p :: q :: r)))
      with (pair_text p ++ "; " ++ String.concat "; " (map pair_text (q :: r))).
    now rewrite IH.
Qed.

Lemma jar_rest_shape (r : list (string * string)) :
  jar_rest r = "" \/ exists s, jar_rest r = String ";" s.
Proof. destruct r as [|p r]; [now left | right; eexists; reflexivity]. Qed.

Lemma cookie_later_jar (name : string) (pairs : list (string * string)) :
  has_char "=" name = false -> Forall pair_ok pairs ->
  cookie_later name (jar_rest pairs) = jar_find name pairs.
Proof.
  intros Hname Hok. induction Hok as [|[n v] r [Hn1 [Hn2 Hv]] Hok IH];
    [reflexivity|].
  cbn [fst snd] in *. cbn [jar_rest jar_find fst snd]. unfold pair_text.
  cbn [fst snd].
  change ("; " ++ (n ++ "=" ++ v) ++ jar_rest r)
    with (String ";" (String " " ((n ++ "=" ++ v) ++ jar_rest r))).
  cbn [cookie_later]. change ("; " ++ name ++ "=") with (String ";" (String " " (name ++ "="))).
  cbn [starts_with]. rewrite !Ascii.eqb_refl.
  rewrite !append_assoc. rewrite starts_with_name by assumption.
  destruct (n =? name).
  - now rewrite until_semicolon_stop by (trivial; apply jar_rest_shape).
  - change (String " " (n ++ "=" ++ v ++ jar_rest r))
      with (" " ++ n ++ "=" ++ v ++ jar_rest r).
    rewrite <- !append_assoc.
    rewrite cookie_later_skip; [exact IH|].
    rewrite !has_char_app. cbn [has_char]. rewrite Hn1, Hv. reflexivity.
Qed.

Lemma cookie_match_jar (name : string) (pairs : list (string * string)) :
  has_char "=" name = false -> Forall pair_ok pairs ->
  cookie_match name (jar_string pairs) = jar_find name pairs.
Proof.
  intros Hname Hok. destruct pairs as [|[n v] r].
  - unfold cookie_match, cookie_here, jar_string. cbn [map String.concat].
    now destruct name.
  - inversion Hok as [|? ? [Hn1 [Hn2 Hv]] Hok']; subst. cbn [fst snd] in *.
    rewrite jar_string_cons. unfold cookie_match, cookie_here, pair_text.
    cbn [fst snd jar_find]. rewrite !append_assoc.
    rewrite starts_with_name by assumption. destruct (n =? name).
    + cbn [option_map].
      now rewrite until_semicolon_stop by (trivial; apply jar_rest_shape).
    + cbn [option_map]. rewrite <- !append_assoc.
      rewrite cookie_later_skip; [now apply cookie_later_jar|].
      rewrite !has_char_app. cbn [has_char]. now rewrite Hn1, Hv.
Qed.

(** X1: on a jar of well-formed pairs, [getCookie] returns the decoded value
    of the first pair whose name is exactly the name asked for, and
    [undefined] when no pair has that name; the store is left as it was. *)
Theorem getCookie_first_pair (name : string) (pairs : list (string * string))
  (t : list event) :
  has_char "=" name = false -> Forall pair_ok pairs ->
  getCookie name (mkStore (Some (jar_string pairs)) t)
  = (match jar_find name pairs with
     | Some raw =>
         match decodeURIComponent raw with
         | Some s => Normal (VStr s)
         | None => Throw (VError "URIError" "URI malformed")
         end
     | None => Normal VUndefined
     end,
     mkStore (Some (jar_string pairs)) t).
Proof.
  intros Hname Hok. unfold getCookie, bind, read_cookie, lift, cookie_value.
  cbn [cookie]. now rewrite cookie_match_jar.
Qed.

Lemma getCookie_first_pair_witness :
  getCookie "sk" (mkStore (Some "xsk=no; sk=a%20b; sk=late") [])
  = (Normal (VStr "a b"), mkStore (Some "xsk=no; sk=a%20b; sk=late") [])
  /\ getCookie "s" (mkStore (Some "xsk=no; sk=a%20b; sk=late") [])
     = (Normal VUndefined, mkStore (Some "xsk=no; sk=a%20b; sk=late") []).
Proof.
  assert (Hok : Forall pair_ok [("xsk", "no"); ("sk", "a%20b"); ("sk", "late")]).
  { repeat constructor. }
  split.
  - exact (getCookie_first_pair "sk" _ [] eq_refl Hok).
  - exact (getCookie_first_pair "s" _ [] eq_refl Hok).
Defined.

(* ================================================================== *)
(** ** Writing a cookie and reading it back *)

Lemma attributes_shape (options : obj) :
  String.concat "" (map attribute_text options) = ""
  \/ exists s, String.concat "" (map attribute_text options) = String ";" s.
Proof.
  destruct options as [|o r]; [now left|]. right.
  cbn [map]. rewrite concat_empty_cons. unfold attribute_text.
  eexists. reflexivity.
Qed.

Lemma written_first_pair (name v : string) (options : obj) :
  has_char ";" name = false ->
  until_semicolon (fold_left cookie_attribute options
                     (name ++ "=" ++ encodeURIComponent v))
  = name ++ "=" ++ encodeURIComponent v.
Proof.
  intros Hn. rewrite fold_cookie_attribute.
  apply until_semicolon_stop; [|apply attributes_shape].
  rewrite !has_char_app. cbn [has_char].
  now rewrite Hn, encoded_clean.
Qed.

Lemma written_reads_back (name v : string) (options : obj) :
  utf8 v = true ->
  cookie_value name (fold_left cookie_attribute options
                       (name ++ "=" ++ encodeURIComponent v))
  = Normal (VStr v).
Proof.
  intros Hv. rewrite fold_cookie_attribute.
  unfold cookie_value, cookie_match, cookie_here.
  replace ((name ++ "=" ++ encodeURIComponent v)
           ++ String.concat "" (map attribute_text options))
    with ((name ++ "=")
          ++ encodeURIComponent v
          ++ String.concat "" (map attribute_text options))
    by now rewrite !append_assoc.
  rewrite starts_with_app. cbn [option_map].
  rewrite until_semicolon_stop
    by (try apply attributes_shape; now apply encoded_clean).
  now rewrite decode_encode.
Qed.

(** X2: the string that [setCookie] assigns reads back, through the pattern
    of [getCookie], as the value that was set, whenever the name needs no
    escaping; what precedes its first semicolon is the name, an equals sign
    and the encoded value, whatever the value holds. *)
Theorem setCookie_reads_back (h : Host) (name : string) (val options : value)
  (c : string) :
  encodeURIComponent name = name ->
  utf8 (to_string val) = true ->
  exists written,
    setCookie h name val options (start (Some c))
    = (Normal tt,
       mkStore (Some (cookie_assigned h c written)) [CookieWrite written])
    /\ until_semicolon written
       = name ++ "=" ++ encodeURIComponent (to_string val)
    /\ cookie_value name written = Normal (VStr (to_string val)).
Proof.
  intros Hname Hval.
  exists (fold_left cookie_attribute (cookie_options options)
            (encodeURIComponent name ++ "="
             ++ encodeURIComponent (to_string val))).
  split; [reflexivity|]. rewrite Hname. split.
  - apply written_first_pair. rewrite <- Hname. now apply encoded_clean.
  - now apply written_reads_back.
Qed.

Lemma setCookie_reads_back_witness :
  exists written,
    setCookie Examples.browser "theme" (VStr "dark; secure=1")
      (VObj [("max-age", VNum 60)]) (start (Some ""))
    = (Normal tt,
       mkStore (Some (cookie_assigned Examples.browser "" written))
         [CookieWrite written])
    /\ until_semicolon written = "theme=dark%3B%20secure%3D1"
    /\ cookie_value "theme" written = Normal (VStr "dark; secure=1").
Proof.
  exact (setCookie_reads_back Examples.browser "theme" (VStr "dark; secure=1")
           (VObj [("max-age", VNum 60)]) "" eq_refl eq_refl).
Defined.

(* ================================================================== *)
(** ** The token routine, in full *)

Lemma getToken_no_document (h : Host) (st : Store) :
  cookie st = None ->
  getToken h st
  = (Throw (VError "ReferenceError" "document is not defined"), st).
Proof.
  intros Hc. unfold getToken, getCookie, bind, read_cookie. now rewrite Hc.
Qed.

Lemma getToken_bad_cookie (h : Host) (st : Store) (c : string) (e : value) :
  cookie st = Some c -> cookie_value "sk" c = Throw e ->
  getToken h st = (Throw e, st).
Proof.
  intros Hc He. unfold getToken, getCookie, bind, read_cookie, lift.
  now rewrite Hc, He.
Qed.

Lemma getToken_cached_at (h : Host) (st : Store) (c : string) (token : value) :
  cookie st = Some c -> cookie_value "sk" c = Normal token ->
  truthy token = true ->
  getToken h st
  = (Normal token,
     mkStore (Some c)
       (trace st ++ [Log ("tokenFromCookie " ++ to_string token)])).
Proof.
  intros Hc Hv Ht. destruct st as [ck tr]. cbn [cookie trace] in Hc.
  subst ck. unfold getToken, getCookie, bind, read_cookie, lift, emit.
  cbn [cookie trace]. rewrite Hv. cbn [cookie trace]. now rewrite Ht.
Qed.

Lemma get_prop_nullish (v : value) (k : string) :
  nullish v = true ->
  get_prop v k = throw (TypeError ("Cannot read properties of " ++ to_string v
                                   ++ " (reading '" ++ k ++ "')")).
Proof. destruct v; try discriminate; reflexivity. Qed.

Lemma get_prop_defined (v : value) (k : string) :
  nullish v = false -> get_prop v k = ret (get (own_props v) k).
Proof. destruct v; try discriminate; reflexivity. Qed.

(** What the guarded block of [getToken] does, from the endpoint call on. *)
Lemma getToken_fetch_eq (h : Host) (st : Store) (c : string) (t : value) :
  cookie st = Some c -> cookie_value "sk" c = Normal t -> truthy t = false ->
  getToken h st
  = let begun := (trace st ++ [Log ("tokenFromCookie " ++ to_string t);
                               CsrfGet ""])%list in
    let failed (e : value) :=
      (@Throw value (VError "Error" ("CSRF token error: " ++ to_string e)),
       mkStore (Some c) begun) in
    match csrf_get h with
    | Throw e => failed e
    | Normal response =>
        if nullish response
        then failed (TypeError ("Cannot read properties of "
                                ++ to_string response ++ " (reading 'data')"))
        else
          let body := get (own_props response) "data" in
          if nullish body
          then failed (TypeError ("Cannot read properties of "
                                  ++ to_string body ++ " (reading 'sk')"))
          else
            let written :=
              fold_left cookie_attribute
                (cookie_options
                   (VObj (obj_set "max-age"
                            (get (own_props body) "max-age-seconds") [])))
                (encodeURIComponent "sk" ++ "="
                 ++ encodeURIComponent
                      (to_string (get (own_props body) "sk"))) in
            (Normal (get (own_props body) "sk"),
             mkStore (Some (cookie_assigned h c written))
               (begun ++ [CookieWrite written;
                          Log ("got new token, set token "
                               ++ cookie_assigned h c written)]))
    end.
Proof.
  intros Hc Hv Ht. destruct st as [ck tr]. cbn [cookie trace] in Hc. subst ck.
  unfold getToken, getCookie, bind at 1 2 3, read_cookie, lift, emit.
  cbn [cookie trace]. rewrite Hv. cbn [cookie trace]. rewrite Ht.
  unfold try_catch, bind at 1 2, emit. cbn [cookie trace]. cbv zeta.
  rewrite <- app_assoc. cbn [app].
  destruct (csrf_get h) as [response|e]; [|reflexivity].
  unfold bind at 1.
  destruct (nullish response) eqn:N1.
  { now rewrite (get_prop_nullish response "data" N1). }
  rewrite (get_prop_defined response "data" N1).
  unfold ret at 1. unfold bind at 1.
  destruct (nullish (get (own_props response) "data")) eqn:N2.
  { now rewrite (get_prop_nullish _ "sk" N2). }
  rewrite !(get_prop_defined _ _ N2).
  unfold ret at 1. unfold bind at 1. unfold ret at 1.
  unfold bind, setCookie, write_cookie, read_cookie, emit, ret.
  cbn [cookie trace]. now rewrite <- app_assoc.
Qed.

Lemma getToken_fetch (h : Host) (st : Store) (c : string) (t : value) :
  cookie st = Some c -> cookie_value "sk" c = Normal t -> truthy t = false ->
  let begun := (trace st ++ [Log ("tokenFromCookie " ++ to_string t);
                             CsrfGet ""])%list in
  (exists cause,
      getToken h st
      = (Throw (VError "Error" ("CSRF token error: " ++ cause)),
         mkStore (Some c) begun))
  \/ (exists written token,
         getToken h st
         = (Normal token,
            mkStore (Some (cookie_assigned h c written))
              (begun ++ [CookieWrite written;
                         Log ("got new token, set token "
                              ++ cookie_assigned h c written)]))).
Proof.
  intros Hc Hv Ht begun. rewrite (getToken_fetch_eq h st c t Hc Hv Ht).
  cbv zeta. fold begun.
  destruct (csrf_get h) as [response|e]; [|left; eexists; reflexivity].
  destruct (nullish response); [left; eexists; reflexivity|].
  destruct (nullish _); [left; eexists; reflexivity|].
  right. eexists. eexists. reflexivity.
Qed.

(** X3: [getToken] fails in three ways only: with the [ReferenceError] of a
    missing [document], with the [URIError] of a cookie [sk] that does not
    decode, both thrown as they are, and, once the cookie has been read, with
    the generic [Error] whose message starts with [CSRF token error: ]. *)
Theorem getToken_failures (h : Host) (st : Store) (e : value) :
  fst (getToken h st) = Throw e ->
  (cookie st = None
   /\ e = VError "ReferenceError" "document is not defined")
  \/ (exists c, cookie st = Some c /\ cookie_value "sk" c = Throw e
                /\ e = VError "URIError" "URI malformed")
  \/ (exists cause, e = VError "Error" ("CSRF token error: " ++ cause)).
Proof.
  intros He. destruct (cookie st) as [c|] eqn:Hc.
  - destruct (cookie_value "sk" c) as [t|e'] eqn:Hv.
    + destruct (truthy t) eqn:Ht.
      * rewrite (getToken_cached_at h st c t Hc Hv Ht) in He. discriminate.
      * destruct (getToken_fetch h st c t Hc Hv Ht)
          as [[cause G]|[written [token G]]];
          rewrite G in He; simpl in He; [|discriminate].
        injection He as <-. right. right. now exists cause.
    + rewrite (getToken_bad_cookie h st c e' Hc Hv) in He. simpl in He.
      injection He as <-. right. left. exists c. repeat split; trivial.
      unfold cookie_value in Hv. destruct (cookie_match "sk" c); [|discriminate].
      destruct (decodeURIComponent s); [discriminate|]. congruence.
  - rewrite (getToken_no_document h st Hc) in He. simpl in He.
    injection He as <-. now left.
Qed.

Lemma getToken_failures_witness :
  exists cause,
    VError "Error" "CSRF token error: Error: Network Error"
    = VError "Error" ("CSRF token error: " ++ cause).
Proof.
  destruct (getToken_failures Examples.offline (start (Some "theme=dark"))
              (VError "Error" "CSRF token error: Error: Network Error")
              eq_refl) as [[H _]|[[c [_ [_ H]]]|H]].
  - discriminate H.
  - discriminate H.
  - exact H.
Defined.

Lemma getToken_effects_at (h : Host) (st : Store) :
  exists evs,
    trace (snd (getToken h st)) = (trace st ++ evs)%list
    /\ requests evs = [] /\ redirects evs = []
    /\ csrf_calls evs <= 1
    /\ ((cookie_writes evs = [] /\ cookie (snd (getToken h st)) = cookie st)
        \/ (exists written token c,
               cookie_writes evs = [written] /\ csrf_calls evs = 1
               /\ fst (getToken h st) = Normal token
               /\ cookie st = Some c
               /\ cookie (snd (getToken h st))
                  = Some (cookie_assigned h c written))).
Proof.
  destruct (cookie st) as [c|] eqn:Hc.
  - destruct (cookie_value "sk" c) as [t|e] eqn:Hv.
    + destruct (truthy t) eqn:Ht.
      * rewrite (getToken_cached_at h st c t Hc Hv Ht).
        eexists. split; [reflexivity|]. cbn. repeat split; auto.
      * rewrite (getToken_fetch_eq h st c t Hc Hv Ht). cbv zeta.
        destruct (csrf_get h) as [response|e];
          [destruct (nullish response);
           [|destruct (nullish (get (own_props response) "data"))]|];
          cbn [snd fst trace cookie]; rewrite <- ?app_assoc;
          (eexists; split; [reflexivity|]); cbn; repeat split; auto.
        right. eexists. eexists. exists c. repeat split.
    + rewrite (getToken_bad_cookie h st c e Hc Hv).
      exists []. cbn. rewrite app_nil_r. repeat split; auto.
  - rewrite (getToken_no_document h st Hc).
    exists []. cbn. rewrite app_nil_r. repeat split; auto.
Qed.

(** X4: one call of [getToken] asks the token endpoint at most once, sends
    nothing through the main client and never navigates; it assigns
    [document.cookie] at most once, and only in a call that asked the
    endpoint and returns the token. *)
Theorem getToken_effects (h : Host) (st : Store) :
  exists evs,
    trace (snd (getToken h st)) = (trace st ++ evs)%list
    /\ requests evs = [] /\ redirects evs = []
    /\ csrf_calls evs <= 1
    /\ ((cookie_writes evs = [] /\ cookie (snd (getToken h st)) = cookie st)
        \/ (exists written token c,
               cookie_writes evs = [written] /\ csrf_calls evs = 1
               /\ fst (getToken h st) = Normal token
               /\ cookie st = Some c
               /\ cookie (snd (getToken h st))
                  = Some (cookie_assigned h c written))).
Proof. apply getToken_effects_at. Qed.

Lemma token_cookie_text (sk maxAge : value) :
  token_cookie sk maxAge
  = "sk=" ++ encodeURIComponent (to_string sk) ++ "; path=/"
    ++ attribute_text ("max-age", maxAge).
Proof.
  unfold token_cookie.
  change (cookie_options (VObj (obj_set "max-age" maxAge [])))
    with [("path", VStr "/"); ("max-age", maxAge)].
  rewrite fold_cookie_attribute. cbn [map]. rewrite !concat_empty_cons.
  cbn [String.concat]. rewrite append_nil_r.
  change (encodeURIComponent "sk") with "sk".
  change (attribute_text ("path", VStr "/")) with "; path=/".
  now rewrite !append_assoc.
Qed.

Lemma cookie_value_match (name a b : string) :
  cookie_match name a = cookie_match name b ->
  cookie_value name a = cookie_value name b.
Proof. unfold cookie_value. now intros ->. Qed.

(** X5: after a call of [getToken] that fetched a token, a second call
    returns the token from the cookie, as a string, without asking the
    endpoint again, provided the browser shows the assigned cookie [sk] in
    [document.cookie]; over both calls the endpoint is asked once. *)
Theorem getToken_twice (h : Host) (c : string) (response : value) :
  no_token c ->
  csrf_get h = Normal response ->
  nullish response = false ->
  let body := get (own_props response) "data" in
  let sk := get (own_props body) "sk" in
  let written := token_cookie sk (get (own_props body) "max-age-seconds") in
  nullish body = false ->
  utf8 (to_string sk) = true ->
  to_string sk <> "" ->
  cookie_match "sk" (cookie_assigned h c written) = cookie_match "sk" written ->
  exists st1 st2,
    getToken h (start (Some c)) = (Normal sk, st1)
    /\ getToken h st1 = (Normal (VStr (to_string sk)), st2)
    /\ csrf_calls (trace st2) = 1
    /\ cookie_writes (trace st2) = [written].
Proof.
  intros Hno Hr N1 body sk written N2 Hu Hne Hjar.
  destruct (no_token_value c Hno) as [t [Hc Ht]].
  pose proof (getToken_fetch_eq h (start (Some c)) c t eq_refl Hc Ht) as G.
  cbv zeta in G. rewrite Hr, N1 in G. fold body in G. rewrite N2 in G.
  fold sk in G. fold (token_cookie sk (get (own_props body) "max-age-seconds"))
    in G. fold written in G.
  eexists. eexists. split; [exact G|].
  assert (Hv : cookie_value "sk" (cookie_assigned h c written)
               = Normal (VStr (to_string sk))).
  { rewrite (cookie_value_match _ _ _ Hjar). unfold written, token_cookie.
    change (encodeURIComponent "sk") with "sk".
    now apply written_reads_back. }
  assert (Htr : truthy (VStr (to_string sk)) = true).
  { simpl. now destruct (String.eqb_spec (to_string sk) ""). }
  split.
  - erewrite getToken_cached_at; [reflexivity | reflexivity | exact Hv | exact Htr].
  - split; reflexivity.
Qed.

Lemma getToken_twice_witness :
  exists st1 st2,
    getToken Examples.browser (start (Some "theme=dark"))
    = (Normal (VStr "abc"), st1)
    /\ getToken Examples.browser st1 = (Normal (VStr "abc"), st2)
    /\ csrf_calls (trace st2) = 1
    /\ cookie_writes (trace st2) = ["sk=abc; path=/; max-age=3600"].
Proof.
  apply (getToken_twice Examples.browser "theme=dark" Examples.token_response);
    try reflexivity; [now left | discriminate].
Defined.

(** X6: a token endpoint that answers without a body makes [getToken] fail
    with the wrapped [TypeError] and leaves the cookie alone; one that
    answers with a body lacking [sk] and [max-age-seconds] makes it succeed
    with [undefined] and store the cookie [sk=undefined]. *)
Theorem getToken_malformed_answer (h : Host) (c : string) (response : value) :
  no_token c ->
  csrf_get h = Normal response ->
  nullish response = false ->
  let body := get (own_props response) "data" in
  exists seen,
    (body = VUndefined ->
     getToken h (start (Some c))
     = (Throw (VError "Error"
                 ("CSRF token error: TypeError: "
                  ++ "Cannot read properties of undefined (reading 'sk')")),
        mkStore (Some c) [Log ("tokenFromCookie " ++ seen); CsrfGet ""]))
    /\ (nullish body = false ->
        lookup "sk" (own_props body) = None ->
        lookup "max-age-seconds" (own_props body) = None ->
        let written := "sk=undefined; path=/; max-age=undefined" in
        getToken h (start (Some c))
        = (Normal VUndefined,
           mkStore (Some (cookie_assigned h c written))
             [Log ("tokenFromCookie " ++ seen); CsrfGet "";
              CookieWrite written;
              Log ("got new token, set token "
                   ++ cookie_assigned h c written)])).
Proof.
  intros Hno Hr N1 body.
  destruct (no_token_value c Hno) as [t [Hc Ht]]. exists (to_string t).
  pose proof (getToken_fetch_eq h (start (Some c)) c t eq_refl Hc Ht) as G.
  cbv zeta in G. rewrite Hr, N1 in G. fold body in G. split.
  - intros Hb. rewrite Hb in G. exact G.
  - intros N2 Hsk Hage written. rewrite N2 in G. unfold get in G.
    rewrite Hsk, Hage in G. exact G.
Qed.

Lemma getToken_malformed_answer_witness :
  let h := mkHost false (VStr "http://localhost:3000") VUndefined
             (fun pattern s => Normal false)
             (fun jar assigned => until_semicolon assigned)
             (Normal (VObj [("data", VObj [])]))
             (fun config => Normal Examples.api_response) in
  exists seen,
    getToken h (start (Some ""))
    = (Normal VUndefined,
       mkStore (Some "sk=undefined")
         [Log ("tokenFromCookie " ++ seen); CsrfGet "";
          CookieWrite "sk=undefined; path=/; max-age=undefined";
          Log "got new token, set token sk=undefined"]).
Proof.
  intros h.
  destruct (getToken_malformed_answer h "" (VObj [("data", VObj [])])
              (or_introl eq_refl) eq_refl eq_refl) as [seen [_ H]].
  exists seen. exact (H eq_refl eq_refl eq_refl).
Defined.

(* ================================================================== *)
(** ** How an action runs *)

Section OnlyClient.

Variable p : event -> bool.
Variable h : Host.

Lemma only_getToken :
  (forall e, is_token_event e = true -> p e = true) -> only p (getToken h).
Proof.
  intros Hp. unfold getToken.
  apply only_bind.
  { unfold getCookie. apply only_bind; auto with only. }
  intros t. apply only_bind; [now apply only_emit, Hp|]. intros _.
  destruct (truthy t); [apply only_ret|].
  apply only_try_catch; [|intros; apply only_throw].
  apply only_bind; [now apply only_emit, Hp|]. intros _.
  apply only_bind; [apply only_lift|]. intros response.
  apply only_bind; [apply only_get_prop|]. intros body.
  apply only_bind; [apply only_get_prop|]. intros sk.
  apply only_bind; [apply only_get_prop|]. intros maxAge.
  apply only_bind; [now apply only_write_cookie, Hp|]. intros _.
  apply only_bind; [apply only_read_cookie|]. intros jar.
  apply only_bind; [now apply only_emit, Hp|]. intros _.
  apply only_get_prop.
Qed.

Lemma only_checkResponse (response : value) :
  (forall e, is_send_event e = true -> p e = true) ->
  only p (checkResponse h response).
Proof.
  intros Hp. unfold checkResponse. destruct (isOnServer h); [apply only_ret|].
  apply only_bind; [apply only_get_prop|]. intros paths.
  apply only_bind; [apply only_get_prop|]. intros loginPath.
  apply only_bind; [apply only_get_prop|]. intros req.
  apply only_bind; [apply only_get_prop|]. intros responseURL.
  destruct (truthy responseURL); [|apply only_ret].
  apply only_bind.
  - unfold str_match. destruct responseURL;
      (apply only_lift || apply only_throw).
  - intros [|]; [|apply only_ret].
    apply only_bind; intros; now apply only_emit, Hp.
Qed.

Lemma only_send (config : obj) :
  (forall e, is_send_event e = true -> p e = true) -> only p (send h config).
Proof.
  intros Hp. unfold send.
  apply only_bind; [now apply only_emit, Hp|]. intros _.
  apply only_bind; [apply only_lift|]. intros response.
  apply only_bind; [now apply only_checkResponse|]. intros _. apply only_ret.
Qed.

End OnlyClient.

Lemma send_rejected (h : Host) (config : obj) (e : value) (st : Store) :
  request h config = Throw e ->
  send h config st
  = (Throw e, mkStore (cookie st) (trace st ++ [Request config])).
Proof. intros Hr. unfold send, bind, emit, lift. cbn. now rewrite Hr. Qed.

Lemma send_resolved (h : Host) (config : obj) (r : value) (st : Store) :
  fst (send h config st) = Normal r -> request h config = Normal r.
Proof.
  unfold send, bind, emit, lift, ret. cbn.
  destruct (request h config) as [response|e]; [|discriminate].
  destruct (checkResponse h response _) as [[[]|e] st1]; cbn; congruence.
Qed.

Lemma bind_run {A B} (m : M A) (k : A -> M B) (st : Store) :
  bind m k st
  = match m st with
    | (Normal a, st') => k a st'
    | (Throw e, st') => (Throw e, st')
    end.
Proof. reflexivity. Qed.

(** Each action either throws before it sends, or ends by sending one
    request from the store that the token routine, if it ran, left. *)
Lemma action_run (h : Host) (options : obj) (c : option string)
  (act : Host -> obj -> M value) :
  In act actions ->
  exists st1,
    before_send h c st1
    /\ ((exists e, act h options (start c) = (Throw e, st1))
        \/ (exists config, act h options (start c) = send h config st1)).
Proof.
  intros [<-|[<-|[<-|[]]]].
  - unfold resourceAction. destruct (truthy (get options "data")).
    + change ("POST" =? "POST") with true. cbv iota.
      unfold attach_csrf. rewrite !bind_run.
      exists (snd (getToken h (start c))). split; [now right|].
      destruct (getToken h (start c)) as [[tok|e] st1]; cbn [snd].
      * right. eexists. reflexivity.
      * left. now exists e.
    + exists (start c). split; [now left|]. right. eexists. reflexivity.
  - unfold recordAction. destruct (truthy (get options "data")).
    + change ("POST" =? "POST") with true. cbv iota.
      unfold attach_csrf. rewrite !bind_run.
      exists (snd (getToken h (start c))). split; [now right|].
      destruct (getToken h (start c)) as [[tok|e] st1]; cbn [snd].
      * right. eexists. reflexivity.
      * left. now exists e.
    + exists (start c). split; [now left|]. right. eexists. reflexivity.
  - unfold bulkAction. rewrite bulk_gate_computed.
    destruct (bulk_gate options).
    + change (toUpperCase "POST" =? "POST") with true. cbv iota.
      unfold attach_csrf. rewrite !bind_run.
      exists (snd (getToken h (start c))). split; [now right|].
      destruct (getToken h (start c)) as [[tok|e] st1]; cbn [snd];
        [|left; now exists e].
      cbn [ret]. rewrite bind_run. unfold join_recordIds.
      destruct (if truthy (get options "recordIds") then _ else _);
        try (left; eexists; reflexivity).
      right. eexists. reflexivity.
    + exists (start c). split; [now left|].
      change (toUpperCase "GET" =? "POST") with false. cbv iota.
      rewrite bind_run. cbn [ret]. rewrite bind_run. unfold join_recordIds.
      destruct (if truthy (get options "recordIds") then _ else _);
        try (left; eexists; reflexivity).
      right. eexists. reflexivity.
Qed.

Lemma csrf_calls_app (t1 t2 : list event) :
  csrf_calls (t1 ++ t2) = csrf_calls t1 + csrf_calls t2.
Proof.
  induction t1 as [|e r IH]; [reflexivity|]. destruct e; simpl; now rewrite IH.
Qed.

Lemma cookie_writes_app (t1 t2 : list event) :
  cookie_writes (t1 ++ t2) = (cookie_writes t1 ++ cookie_writes t2)%list.
Proof.
  induction t1 as [|e r IH]; [reflexivity|]. destruct e; simpl; now rewrite IH.
Qed.

Lemma redirects_app (t1 t2 : list event) :
  redirects (t1 ++ t2) = (redirects t1 ++ redirects t2)%list.
Proof.
  induction t1 as [|e r IH]; [reflexivity|]. destruct e; simpl; now rewrite IH.
Qed.

Lemma send_events_facts (evs : list event) :
  forallb is_send_event evs = true ->
  csrf_calls evs = 0 /\ cookie_writes evs = [].
Proof.
  induction evs as [|e r IH]; [now split|].
  destruct e; simpl; intros H; try discriminate; now apply IH.
Qed.

Lemma before_send_facts (h : Host) (c : option string) (st : Store) :
  before_send h c st ->
  requests (trace st) = [] /\ redirects (trace st) = []
  /\ csrf_calls (trace st) <= 1 /\ length (cookie_writes (trace st)) <= 1.
Proof.
  intros [->| ->]; [cbn; repeat split; lia|].
  destruct (getToken_effects_at h (start c)) as [evs [E [R [D [C W]]]]].
  rewrite E. cbn [start trace app]. repeat split; trivial.
  destruct W as [[-> _]|[w [tok [c' [-> _]]]]]; cbn; lia.
Qed.

Lemma issued_send (h : Host) (c : option string) (config : obj) (st : Store) :
  before_send h c st -> issued (send h config st) = [config].
Proof.
  intros B. unfold issued. rewrite send_requests.
  now destruct (before_send_facts h c st B) as [-> _].
Qed.

Lemma issued_thrown (h : Host) (c : option string) (e : value) (st : Store) :
  before_send h c st -> issued (@Throw value e, st) = [].
Proof.
  intros B. unfold issued. cbn [snd].
  now destruct (before_send_facts h c st B) as [-> _].
Qed.

(** Nothing that happens before the request is sent raises an alert. *)
Lemma before_send_no_alert (h : Host) (c : option string) (st : Store)
  (message : string) :
  before_send h c st -> ~ In (Alert message) (trace st).
Proof.
  intros [->| ->]; [intros []|].
  destruct (only_getToken is_token_event h (fun e H => H) (start c))
    as [evs [E F]].
  rewrite E. cbn [start trace app]. intros Hin.
  rewrite forallb_forall in F. apply F in Hin. discriminate.
Qed.

(** X7: when the request of an action is rejected by the transport, the
    action rejects with that very error, not wrapped, and the session check
    is not run: no alert, no navigation. *)
Theorem action_rejection_passes (h : Host) (options : obj) (c : option string)
  (act : Host -> obj -> M value) (config : obj) (e : value) :
  In act actions ->
  In config (issued (act h options (start c))) ->
  request h config = Throw e ->
  fst (act h options (start c)) = Throw e
  /\ redirects (trace (snd (act h options (start c)))) = []
  /\ forall message,
       ~ In (Alert message) (trace (snd (act h options (start c)))).
Proof.
  intros Ha Hin Hr.
  destruct (action_run h options c act Ha) as [st1 [B [[e' E]|[config' E]]]];
    rewrite E in *.
  - rewrite (issued_thrown h c e' st1 B) in Hin. contradiction.
  - rewrite (issued_send h c config' st1 B) in Hin.
    destruct Hin as [->|[]]. rewrite (send_rejected h config e st1 Hr).
    cbn [fst snd trace]. split; [reflexivity|]. split.
    + rewrite redirects_app. cbn.
      destruct (before_send_facts h c st1 B) as [_ [-> _]]. reflexivity.
    + intros message Hin. apply in_app_or in Hin.
      destruct Hin as [Hin|[Hin|[]]]; [|discriminate].
      exact (before_send_no_alert h c st1 message B Hin).
Qed.

Lemma action_rejection_passes_witness :
  let h := mkHost false (VStr "http://localhost:3000") VUndefined
             (fun pattern s => Normal false)
             (fun jar assigned => until_semicolon assigned)
             (Normal Examples.token_response)
             (fun config => Throw (VError "AxiosError"
                                     "Request failed with status code 500")) in
  fst (resourceAction h Examples.new_comment (start (Some "")))
  = Throw (VError "AxiosError" "Request failed with status code 500")
  /\ redirects (trace (snd (resourceAction h Examples.new_comment
                              (start (Some ""))))) = []
  /\ forall message,
       ~ In (Alert message)
            (trace (snd (resourceAction h Examples.new_comment
                           (start (Some ""))))).
Proof.
  intros h.
  exact (action_rejection_passes h Examples.new_comment (Some "")
           resourceAction _
           (VError "AxiosError" "Request failed with status code 500")
           (or_introl eq_refl) (or_introl eq_refl) eq_refl).
Defined.

(** X8: an action that resolves has issued exactly one request and resolves
    to the response the transport gave for it, unchanged. *)
Theorem action_returns_response (h : Host) (options : obj) (c : option string)
  (act : Host -> obj -> M value) (response : value) :
  In act actions ->
  fst (act h options (start c)) = Normal response ->
  exists config,
    issued (act h options (start c)) = [config]
    /\ request h config = Normal response.
Proof.
  intros Ha Hr.
  destruct (action_run h options c act Ha) as [st1 [B [[e' E]|[config E]]]];
    rewrite E in *; [discriminate|].
  exists config. split; [now apply (issued_send h c)|].
  now apply send_resolved in Hr.
Qed.

Lemma action_returns_response_witness :
  exists config,
    issued (bulkAction Examples.browser Examples.delete_comments
              (start (Some "")))
    = [config]
    /\ request Examples.browser config = Normal Examples.api_response.
Proof.
  exact (action_returns_response Examples.browser Examples.delete_comments
           (Some "") bulkAction Examples.api_response
           (or_intror (or_intror (or_introl eq_refl))) eq_refl).
Defined.

(** X9: one call of an action sends at most one request, asks the token
    endpoint at most once and assigns [document.cookie] at most once: nothing
    is retried. *)
Theorem action_effects_once (h : Host) (options : obj) (c : option string)
  (act : Host -> obj -> M value) :
  In act actions ->
  let t := trace (snd (act h options (start c))) in
  length (requests t) <= 1 /\ csrf_calls t <= 1
  /\ length (cookie_writes t) <= 1.
Proof.
  intros Ha t. subst t.
  destruct (action_run h options c act Ha) as [st1 [B [[e' E]|[config E]]]];
    rewrite E; destruct (before_send_facts h c st1 B) as [R [_ [C W]]].
  - cbn [snd]. rewrite R. cbn. lia.
  - rewrite send_requests, R.
    destruct (only_send is_send_event h config (fun e H => H) st1)
      as [evs [-> P]].
    destruct (send_events_facts evs P) as [Hc Hw].
    rewrite csrf_calls_app, cookie_writes_app, Hc, Hw, app_nil_r. cbn. lia.
Qed.

Lemma action_effects_once_witness :
  let t := trace (snd (bulkAction Examples.browser Examples.delete_comments
                          (start (Some "")))) in
  length (requests t) <= 1 /\ csrf_calls t <= 1
  /\ length (cookie_writes t) <= 1.
Proof.
  exact (action_effects_once Examples.browser Examples.delete_comments
           (Some "") bulkAction (or_intror (or_intror (or_introl eq_refl)))).
Defined.

(* ================================================================== *)
(** ** Without a document *)

(** X10: where there is no [document], as on the server, [getToken] throws
    the [ReferenceError] as it is, before any effect; every action that
    needs a token rejects with it and sends nothing, while a resource or
    record action without [data] still sends its request. *)
Theorem actions_without_document (h : Host) (options : obj) :
  let missing := VError "ReferenceError" "document is not defined" in
  getToken h (start None) = (Throw missing, start None)
  /\ (truthy (get options "data") = true ->
      resourceAction h options (start None) = (Throw missing, start None)
      /\ recordAction h options (start None) = (Throw missing, start None))
  /\ (truthy (get options "method") || truthy (get options "data") = true ->
      bulkAction h options (start None) = (Throw missing, start None))
  /\ (truthy (get options "data") = false ->
      length (issued (resourceAction h options (start None))) = 1
      /\ length (issued (recordAction h options (start None))) = 1).
Proof.
  intros missing.
  pose proof (getToken_no_document h (start None) eq_refl) as G.
  destruct (gated_action_rejects h options _ _ _ G) as [H1 [H2 H3]].
  repeat split; auto.
  - unfold issued. rewrite resourceAction_requests, H. reflexivity.
  - unfold issued. rewrite recordAction_requests, H. reflexivity.
Qed.

Lemma actions_without_document_witness :
  resourceAction Examples.server Examples.new_comment (start None)
  = (Throw (VError "ReferenceError" "document is not defined"), start None)
  /\ length (issued (resourceAction Examples.server Examples.list_comments
                       (start None))) = 1.
Proof.
  destruct (actions_without_document Examples.server Examples.new_comment)
    as [_ [H _]].
  destruct (actions_without_document Examples.server Examples.list_comments)
    as [_ [_ [_ H']]].
  split; [exact (proj1 (H eq_refl)) | exact (proj1 (H' eq_refl))].
Defined.

(* ================================================================== *)
(** ** The session check *)

Lemma redirects_send_events (evs : list event) (url : string) :
  In url (redirects evs) -> In (LocationAssign url) evs.
Proof.
  induction evs as [|e r IH]; [contradiction|].
  destruct e; simpl; intros H; try (right; now apply IH).
  destruct H as [->|H]; [now left | right; now apply IH].
Qed.

(** What the session check appends to the trace. *)
Lemma checkResponse_events (h : Host) (response : value) (st : Store) :
  exists evs,
    trace (snd (checkResponse h response st)) = (trace st ++ evs)%list
    /\ cookie (snd (checkResponse h response st)) = cookie st
    /\ (evs = []
        \/ (isOnServer h = false
            /\ fst (checkResponse h response st) = Normal tt
            /\ evs = [Alert "Your session expired. You will be redirected to login screen";
                      LocationAssign (login_url h)])).
Proof.
  unfold checkResponse, login_url. destruct (isOnServer h).
  { exists []. cbn. rewrite app_nil_r. auto. }
  rewrite bind_run.
  destruct (nullish (REDUX_STATE h)) eqn:N1.
  { rewrite (get_prop_nullish _ _ N1). exists []. cbn. rewrite app_nil_r. auto. }
  rewrite (get_prop_defined _ _ N1). cbn [ret]. rewrite bind_run.
  destruct (nullish (get (own_props (REDUX_STATE h)) "paths")) eqn:N2.
  { rewrite (get_prop_nullish _ _ N2). exists []. cbn. rewrite app_nil_r. auto. }
  rewrite (get_prop_defined _ _ N2). cbn [ret]. rewrite bind_run.
  destruct (nullish response) eqn:N3.
  { rewrite (get_prop_nullish _ _ N3). exists []. cbn. rewrite app_nil_r. auto. }
  rewrite (get_prop_defined _ _ N3). cbn [ret]. rewrite bind_run.
  destruct (nullish (get (own_props response) "request")) eqn:N4.
  { rewrite (get_prop_nullish _ _ N4). exists []. cbn. rewrite app_nil_r. auto. }
  rewrite (get_prop_defined _ _ N4). cbn [ret].
  destruct (truthy _); [|exists []; cbn; rewrite app_nil_r; auto].
  rewrite bind_run. unfold str_match.
  destruct (get (own_props (get (own_props response) "request")) "responseURL");
    try (exists []; cbn; rewrite app_nil_r; now auto).
  unfold lift. destruct (regexp_match h _ s) as [[|]|e];
    try (exists []; cbn; rewrite app_nil_r; now auto).
  exists [Alert "Your session expired. You will be redirected to login screen";
          LocationAssign (login_url h)].
  unfold login_url, bind, emit. cbn [fst snd trace cookie].
  rewrite <- app_assoc. split; [reflexivity|]. split; [reflexivity|].
  right. auto.
Qed.

Lemma checkResponse_expired (h : Host) (response : value) (st : Store) :
  session_expired h response ->
  checkResponse h response st
  = (Normal tt,
     mkStore (cookie st)
       (trace st ++ [Alert expired_message; LocationAssign (login_url h)])).
Proof.
  intros [Hs [N1 [N2 [N3 [N4 [url [Hu [Hne Hm]]]]]]]].
  unfold checkResponse. rewrite Hs.
  rewrite bind_run, (get_prop_defined _ _ N1). cbn [ret].
  rewrite bind_run, (get_prop_defined _ _ N2). cbn [ret].
  rewrite bind_run, (get_prop_defined _ _ N3). cbn [ret].
  rewrite bind_run, (get_prop_defined _ _ N4). cbn [ret].
  rewrite Hu. cbn [truthy].
  destruct (String.eqb_spec url "") as [->|_]; [congruence|]. cbn [negb].
  rewrite bind_run. unfold str_match, lift. fold (login_url h). rewrite Hm.
  unfold bind, emit. cbn [cookie trace]. now rewrite <- app_assoc.
Qed.

Lemma checkResponse_no_state (h : Host) (response : value) (st : Store) :
  isOnServer h = false -> nullish (REDUX_STATE h) = true ->
  checkResponse h response st
  = (Throw (TypeError ("Cannot read properties of "
                       ++ to_string (REDUX_STATE h) ++ " (reading 'paths')")),
     st).
Proof.
  intros Hs N. unfold checkResponse. rewrite Hs, bind_run.
  now rewrite (get_prop_nullish _ _ N).
Qed.

(** What sending appends to the trace, and with what result. *)
Lemma send_events (h : Host) (config : obj) (st : Store) :
  exists evs,
    trace (snd (send h config st)) = (trace st ++ Request config :: evs)%list
    /\ (evs = []
        \/ (isOnServer h = false
            /\ evs = [Alert expired_message; LocationAssign (login_url h)]
            /\ exists response,
                 request h config = Normal response
                 /\ fst (send h config st) = Normal response)).
Proof.
  unfold send. rewrite bind_run. unfold emit. rewrite bind_run. unfold lift.
  destruct (request h config) as [response|e].
  2:{ exists []. cbn. auto. }
  rewrite bind_run.
  destruct (checkResponse_events h response
              (mkStore (cookie st) (trace st ++ [Request config])))
    as [evs [E [_ H]]].
  exists evs. cbn [trace] in E.
  destruct (checkResponse h response _) as [[[]|e] st2]; unfold ret;
    cbn [fst snd] in *; rewrite E, <- app_assoc; (split; [reflexivity|]).
  - destruct H as [H|[Hs [_ H]]]; [now left|]. right.
    repeat split; trivial. now exists response.
  - destruct H as [H|[_ [H _]]]; [now left | discriminate].
Qed.

(** X11: an action navigates at most once, only in a browser, only to the
    login URL built from the origin and the login path of the page, never to
    a URL taken from the response, and only after its request was answered;
    it then still resolves to the response. *)
Theorem action_redirects (h : Host) (options : obj) (c : option string)
  (act : Host -> obj -> M value) :
  In act actions ->
  let r := act h options (start c) in
  redirects (trace (snd r)) = []
  \/ (isOnServer h = false
      /\ redirects (trace (snd r)) = [login_url h]
      /\ exists config response,
           issued r = [config]
           /\ request h config = Normal response
           /\ fst r = Normal response).
Proof.
  intros Ha r. subst r.
  destruct (action_run h options c act Ha) as [st1 [B [[e' E]|[config E]]]];
    rewrite E; destruct (before_send_facts h c st1 B) as [R [D _]].
  - left. exact D.
  - destruct (send_events h config st1) as [evs [T [->|[Hs [-> [resp [Hq Hr]]]]]]];
      rewrite T, redirects_app, D; [now left|]. right.
    repeat split; trivial. exists config, resp.
    repeat split; trivial. now apply (issued_send h c).
Qed.

Lemma action_redirects_witness :
  let h := mkHost false (VStr "http://localhost:3000")
             (VObj [("paths", VObj [("loginPath", VStr "/admin/login")])])
             (fun pattern s => Normal true)
             (fun jar assigned => until_semicolon assigned)
             (Normal Examples.token_response)
             (fun config => Normal Examples.api_response) in
  redirects (trace (snd (recordAction h Examples.show_comment
                           (start (Some "")))))
  = ["http://localhost:3000/admin/login"].
Proof.
  intros h.
  destruct (action_redirects h Examples.show_comment (Some "") recordAction
              (or_intror (or_introl eq_refl))) as [H|[_ [H _]]].
  - discriminate H.
  - exact H.
Defined.

(** X12: on a page without [REDUX_STATE], [getBaseUrl] still succeeds and
    yields the origin alone, but the session check does not: every action
    whose request is answered rejects with a [TypeError], after the request
    has been sent. *)
Theorem page_without_state (h : Host) (options : obj) (c : option string)
  (act : Host -> obj -> M value) (st : Store) :
  isOnServer h = false ->
  nullish (REDUX_STATE h) = true ->
  getBaseUrl h st = (Normal (join_element (location_origin h)), st)
  /\ (In act actions ->
      forall config response,
        In config (issued (act h options (start c))) ->
        request h config = Normal response ->
        fst (act h options (start c))
        = Throw (TypeError ("Cannot read properties of "
                            ++ to_string (REDUX_STATE h)
                            ++ " (reading 'paths')"))).
Proof.
  intros Hs N. split.
  - unfold getBaseUrl. rewrite Hs.
    destruct (REDUX_STATE h); try discriminate; cbn;
      now rewrite append_nil_r.
  - intros Ha config response Hin Hr.
    destruct (action_run h options c act Ha) as [st1 [B [[e' E]|[config' E]]]];
      rewrite E in *.
    + rewrite (issued_thrown h c e' st1 B) in Hin. contradiction.
    + rewrite (issued_send h c config' st1 B) in Hin.
      destruct Hin as [->|[]].
      unfold send. rewrite bind_run. unfold emit. rewrite bind_run.
      unfold lift. rewrite Hr, bind_run.
      now rewrite (checkResponse_no_state h response _ Hs N).
Qed.

Lemma page_without_state_witness :
  let h := mkHost false (VStr "http://localhost:3000") VUndefined
             (fun pattern s => Normal false)
             (fun jar assigned => until_semicolon assigned)
             (Normal Examples.token_response)
             (fun config => Normal Examples.api_response) in
  getBaseUrl h (start None) = (Normal "http://localhost:3000", start None)
  /\ fst (resourceAction h Examples.list_comments (start (Some "")))
     = Throw (TypeError "Cannot read properties of undefined (reading 'paths')").
Proof.
  intros h.
  destruct (page_without_state h Examples.list_comments (Some "")
              resourceAction (start None) eq_refl eq_refl) as [H1 H2].
  split; [exact H1|].
  exact (H2 (or_introl eq_refl) _ Examples.api_response (or_introl eq_refl)
            eq_refl).
Defined.

Lemma send_expired (h : Host) (config : obj) (response : value) (st : Store) :
  request h config = Normal response -> session_expired h response ->
  send h config st
  = (Normal response,
     mkStore (cookie st)
       (trace st ++ [Request config; Alert expired_message;
                     LocationAssign (login_url h)])).
Proof.
  intros Hr He. unfold send. rewrite bind_run. unfold emit.
  rewrite bind_run. unfold lift. rewrite Hr, bind_run.
  rewrite (checkResponse_expired h response _ He). unfold ret.
  cbn [cookie trace]. now rewrite <- app_assoc.
Qed.

Lemma searchRecords_issued (h : Host) (resourceId query searchProperty : value)
  (c : option string) :
  isOnServer h = false ->
  issued (searchRecords h resourceId query searchProperty (start c))
  = [request_literal
       (resource_url (search_options resourceId query searchProperty)) "GET"
       (omit ["resourceId"; "actionName"; "data"; "query"]
          (search_options resourceId query searchProperty))
       VUndefined].
Proof.
  intros Hs. rewrite searchRecords_browser by assumption.
  rewrite issued_bind_quiet.
  - assert (Hd : get (search_options resourceId query searchProperty) "data"
                 = VUndefined).
    { unfold search_options. now destruct (truthy searchProperty). }
    rewrite resourceAction_ungated by now rewrite Hd.
    unfold issued. rewrite send_requests, Hd. reflexivity.
  - intros response. apply only_bind; [apply quiet_checkResponse|].
    intros _. apply quiet_data_records.
Qed.

Lemma data_records_pure (response : value) (st : Store) :
  data_records response st = (fst (data_records response (start None)), st).
Proof.
  unfold data_records. rewrite !bind_run.
  destruct (nullish response) eqn:N1.
  { now rewrite (get_prop_nullish _ _ N1). }
  rewrite (get_prop_defined _ _ N1). cbn [ret].
  destruct (nullish (get (own_props response) "data")) eqn:N2.
  { now rewrite (get_prop_nullish _ _ N2). }
  now rewrite (get_prop_defined _ _ N2).
Qed.

(** X13: [searchRecords] runs the session check twice, once inside
    [resourceAction] and once itself: when the session has expired the user
    is alerted twice and sent to the login URL twice, and the records of the
    response are still returned. *)
Theorem searchRecords_checks_twice (h : Host)
  (resourceId query searchProperty : value) (c : option string) :
  isOnServer h = false ->
  exists config,
    issued (searchRecords h resourceId query searchProperty (start c))
    = [config]
    /\ forall response,
         request h config = Normal response ->
         session_expired h response ->
         exists st,
           trace st = [Request config;
                       Alert expired_message; LocationAssign (login_url h);
                       Alert expired_message; LocationAssign (login_url h)]
           /\ searchRecords h resourceId query searchProperty (start c)
              = data_records response st.
Proof.
  intros Hs. eexists. split; [now apply searchRecords_issued|].
  assert (Hd : get (search_options resourceId query searchProperty) "data"
               = VUndefined).
  { unfold search_options. now destruct (truthy searchProperty). }
  intros response Hr He.
  rewrite searchRecords_browser by assumption.
  rewrite bind_run, resourceAction_ungated by now rewrite Hd.
  rewrite Hd, (send_expired h _ response _ Hr He).
  rewrite bind_run, (checkResponse_expired h response _ He).
  eexists. split; [|reflexivity]. cbn [trace start app]. reflexivity.
Qed.

Lemma searchRecords_checks_twice_witness :
  let h := mkHost false (VStr "http://localhost:3000")
             (VObj [("paths", VObj [("loginPath", VStr "/admin/login")])])
             (fun pattern s => Normal true)
             (fun jar assigned => until_semicolon assigned)
             (Normal Examples.token_response)
             (fun config => Normal Examples.api_response) in
  redirects (trace (snd (searchRecords h (VStr "Comments") (VStr "hello")
                           VUndefined (start (Some "")))))
  = ["http://localhost:3000/admin/login"; "http://localhost:3000/admin/login"]
  /\ fst (searchRecords h (VStr "Comments") (VStr "hello") VUndefined
            (start (Some "")))
     = Normal (VArr [VObj [("id", VStr "1")]]).
Proof.
  intros h.
  destruct (searchRecords_checks_twice h (VStr "Comments") (VStr "hello")
              VUndefined (Some "") eq_refl) as [config [_ H]].
  destruct (H Examples.api_response eq_refl) as [st [Ht ->]].
  - repeat split; try reflexivity. exists "http://localhost:3000/admin/api".
    repeat split. discriminate.
  - rewrite (data_records_pure Examples.api_response st). cbn [fst snd].
    rewrite Ht. split; reflexivity.
Defined.

(* ================================================================== *)
(** ** What reaches the request *)

Lemma literal_lookup (url method : string) (ap : obj) (data : value)
  (k : string) :
  NoDup (map fst ap) -> k <> "data" ->
  lookup k (request_literal url method ap data)
  = match lookup k ap with
    | Some v => Some v
    | None => lookup k [("url", VStr url); ("method", VStr method)]
    end.
Proof.
  intros Hnd Hk. destruct (lookup k ap) as [v|] eqn:E.
  - now apply literal_spread.
  - now apply literal_own.
Qed.

Lemma literal_data (url method : string) (ap : obj) (data : value) :
  lookup "data" (request_literal url method ap data) = Some data.
Proof. apply lookup_obj_set_same. Qed.

Lemma handed_on_literal (h : Host) (gate : bool) (taken : list string)
  (options ap : obj) (st : Store) (url method : string) (data : value)
  (k : string) :
  NoDup (map fst options) ->
  params_for h gate (omit taken options) st = Some ap ->
  ~ In k ["url"; "method"; "headers"; "data"] ->
  lookup k (request_literal url method ap data) = handed_on taken options k.
Proof.
  intros Hnd P Hk.
  assert (H : k <> "url" /\ k <> "method" /\ k <> "headers" /\ k <> "data").
  { repeat split; intros ->; apply Hk; simpl; tauto. }
  destruct H as [H1 [H2 [H3 H4]]].
  rewrite literal_lookup;
    [|eapply params_for_NoDup; [exact P | now apply NoDup_omit] | assumption].
  rewrite (params_for_lookup _ _ _ _ _ _ P) by assumption.
  rewrite lookup_omit. unfold handed_on.
  destruct (existsb (String.eqb k) taken); [|destruct (lookup k options)];
    try reflexivity;
    cbn [lookup]; destruct (String.eqb_spec k "url"); try contradiction;
    destruct (String.eqb_spec k "method"); try contradiction; reflexivity.
Qed.

(** X14: apart from [url], [method], [headers] and [data] (and [params] in
    a bulk action), every transport option of the caller reaches the request
    unchanged, the names an action takes for itself ([resourceId],
    [actionName], ...) never do, and [data] is always handed on as given. *)
Theorem transport_options_pass_through (h : Host) (options : obj)
  (c : option string) (k : string) :
  NoDup (map fst options) ->
  ~ In k ["url"; "method"; "headers"; "data"] ->
  (forall config,
      In config (issued (resourceAction h options (start c))) ->
      lookup k config
      = handed_on ["resourceId"; "actionName"; "data"; "query"] options k
      /\ lookup "data" config = Some (get options "data"))
  /\ (forall config,
         In config (issued (recordAction h options (start c))) ->
         lookup k config
         = handed_on ["resourceId"; "recordId"; "actionName"; "data"] options k
         /\ lookup "data" config = Some (get options "data"))
  /\ (forall config,
         In config (issued (bulkAction h options (start c))) ->
         (k <> "params" ->
          lookup k config
          = handed_on ["resourceId"; "recordIds"; "actionName"; "data"]
              options k)
         /\ lookup "data" config = Some (get options "data")).
Proof.
  intros Hnd Hk. unfold issued.
  rewrite resourceAction_requests, recordAction_requests, bulkAction_requests.
  repeat split; intros;
    destruct (params_for _ _ _ _) as [ap|] eqn:P; try contradiction.
  - destruct H as [<-|[]]. now apply (handed_on_literal h _ _ _ _ _ _ _ _ _ Hnd P).
  - destruct H as [<-|[]]. apply literal_data.
  - destruct H as [<-|[]]. now apply (handed_on_literal h _ _ _ _ _ _ _ _ _ Hnd P).
  - destruct H as [<-|[]]. apply literal_data.
  - destruct (joined_ids _); [|contradiction]. destruct H as [<-|[]].
    rewrite lookup_obj_set_other by assumption.
    now apply (handed_on_literal h _ _ _ _ _ _ _ _ _ Hnd P).
  - destruct (joined_ids _); [|contradiction]. destruct H as [<-|[]].
    rewrite lookup_obj_set_other by discriminate. apply literal_data.
Qed.

Lemma transport_options_pass_through_witness :
  let options := [("resourceId", VStr "Comments"); ("actionName", VStr "list");
                  ("timeout", VNum 5000)] in
  exists config,
    issued (resourceAction Examples.browser options (start (Some "")))
    = [config]
    /\ lookup "timeout" config = Some (VNum 5000)
    /\ lookup "data" config = Some VUndefined.
Proof.
  intros options. eexists. split; [reflexivity|].
  assert (Hnd : NoDup (map fst options)).
  { repeat constructor; simpl; intuition discriminate. }
  assert (Hk : ~ In "timeout" ["url"; "method"; "headers"; "data"]).
  { simpl. intuition discriminate. }
  destruct (transport_options_pass_through Examples.browser options (Some "")
              "timeout" Hnd Hk) as [H _].
  exact (H _ (or_introl eq_refl)).
Defined.

Lemma lookup_spread_nil (v : value) (k : string) :
  NoDup (map fst (own_props v)) ->
  lookup k (spread v []) = lookup k (own_props v).
Proof.
  intros Hnd. destruct (lookup k (own_props v)) as [x|] eqn:E.
  - now apply lookup_spread_present.
  - now rewrite lookup_spread_absent.
Qed.

Lemma headers_kept_literal (h : Host) (gate : bool) (taken : list string)
  (options ap : obj) (st : Store) (url method : string) (data : value) :
  NoDup (map fst options) ->
  NoDup (map fst (own_props (get options "headers"))) ->
  existsb (String.eqb "headers") taken = false ->
  params_for h gate (omit taken options) st = Some ap ->
  headers_kept gate options (request_literal url method ap data).
Proof.
  intros Hnd Hh Ht P.
  assert (Hap : NoDup (map fst ap)).
  { eapply params_for_NoDup; [exact P | now apply NoDup_omit]. }
  assert (Hget : get (omit taken options) "headers" = get options "headers").
  { unfold get. now rewrite lookup_omit, Ht. }
  unfold headers_kept, params_for in *. destruct gate.
  - destruct (fst (getToken h st)) as [tok|]; [|discriminate].
    injection P as <-. eexists. split.
    + apply literal_spread; [assumption| |discriminate].
      unfold with_csrf. apply lookup_obj_set_same.
    + intros k Hk. rewrite lookup_obj_set_other by assumption.
      rewrite Hget. now apply lookup_spread_nil.
  - injection P as <-. rewrite literal_lookup by (assumption || discriminate).
    rewrite lookup_omit, Ht. now destruct (lookup "headers" options).
Qed.

(** X15: attaching the token keeps every other header the caller supplied;
    a call that needs no token hands the caller's [headers] on untouched. *)
Theorem caller_headers_kept (h : Host) (options : obj) (c : option string) :
  NoDup (map fst options) ->
  NoDup (map fst (own_props (get options "headers"))) ->
  (forall config,
      In config (issued (resourceAction h options (start c))) ->
      headers_kept (truthy (get options "data")) options config)
  /\ (forall config,
         In config (issued (recordAction h options (start c))) ->
         headers_kept (truthy (get options "data")) options config)
  /\ (forall config,
         In config (issued (bulkAction h options (start c))) ->
         headers_kept (truthy (get options "method")
                       || truthy (get options "data")) options config).
Proof.
  intros Hnd Hh. unfold issued.
  rewrite resourceAction_requests, recordAction_requests, bulkAction_requests.
  fold (bulk_gate options).
  repeat split; intros config Hin;
    destruct (params_for _ _ _ _) as [ap|] eqn:P; try contradiction.
  - destruct Hin as [<-|[]].
    eapply headers_kept_literal; [exact Hnd | exact Hh | | exact P].
    reflexivity.
  - destruct Hin as [<-|[]].
    eapply headers_kept_literal; [exact Hnd | exact Hh | | exact P].
    reflexivity.
  - destruct (joined_ids _); [|contradiction]. destruct Hin as [<-|[]].
    assert (K : headers_kept (bulk_gate options) options
                  (request_literal (bulk_url options)
                     (if bulk_gate options then "POST" else "GET") ap
                     (get options "data"))).
    { eapply headers_kept_literal; [exact Hnd | exact Hh | | exact P].
      reflexivity. }
    unfold headers_kept in *. destruct (bulk_gate options).
    + destruct K as [headers [K1 K2]]. exists headers. split; [|exact K2].
      now rewrite lookup_obj_set_other by discriminate.
    + now rewrite lookup_obj_set_other by discriminate.
Qed.

Lemma caller_headers_kept_witness :
  exists config,
    issued (resourceAction Examples.browser Examples.forged_comment
              (start (Some "sk=abc"))) = [config]
    /\ headers_kept true Examples.forged_comment config
    /\ get config "headers"
       = VObj [("X-Csrf-Token", VStr "abc"); ("Accept", VStr "*/*")].
Proof.
  eexists. split; [reflexivity|]. split; [|reflexivity].
  assert (Hnd : NoDup (map fst Examples.forged_comment)).
  { repeat constructor; simpl; intuition discriminate. }
  assert (Hh : NoDup (map fst (own_props (get Examples.forged_comment
                                            "headers")))).
  { repeat constructor; simpl; intuition discriminate. }
  destruct (caller_headers_kept Examples.browser Examples.forged_comment
              (Some "sk=abc") Hnd Hh) as [H _].
  exact (H _ (or_introl eq_refl)).
Defined.

(* ================================================================== *)
(** ** Pages *)

Lemma send_cookie (h : Host) (config : obj) (st : Store) :
  cookie (snd (send h config st)) = cookie st.
Proof.
  unfold send. rewrite !bind_run. unfold emit, lift. rewrite bind_run.
  destruct (request h config) as [response|e]; [|reflexivity].
  destruct (checkResponse_events h response
              (mkStore (cookie st) (trace st ++ [Request config])))
    as [evs' [_ [C _]]].
  rewrite bind_run.
  now destruct (checkResponse h response _) as [[[]|e] st2].
Qed.

(** X16: [getPage] sends exactly one request and nothing else: it never
    reads or writes the cookie and never asks the token endpoint, whatever
    method or data the caller passes; the request goes to [/api/pages/]
    followed by the page name unless the caller passes a [url], and every
    other option but [pageName] is handed on unchanged. *)
Theorem getPage_request (h : Host) (options : obj) (st : Store) :
  NoDup (map fst options) ->
  exists config evs,
    trace (snd (getPage h options st)) = (trace st ++ Request config :: evs)%list
    /\ requests evs = [] /\ csrf_calls evs = 0 /\ cookie_writes evs = []
    /\ cookie (snd (getPage h options st)) = cookie st
    /\ lookup "url" config
       = match lookup "url" options with
         | Some url => Some url
         | None => Some (VStr ("/api/pages/"
                               ++ to_string (get options "pageName")))
         end
    /\ forall k, k <> "url" ->
                 lookup k config = handed_on ["pageName"] options k.
Proof.
  intros Hnd. unfold getPage.
  set (config := spread (VObj (omit ["pageName"] options))
                   (obj_set "url"
                      (VStr ("/api/pages/" ++ to_string (get options "pageName")))
                      [])).
  assert (L : forall k,
             lookup k config
             = match handed_on ["pageName"] options k with
               | Some v => Some v
               | None => lookup k [("url", VStr ("/api/pages/"
                                                 ++ to_string (get options "pageName")))]
               end).
  { intros k. unfold config, handed_on. rewrite <- lookup_omit.
    destruct (lookup k (omit ["pageName"] options)) eqn:E.
    - apply lookup_spread_present; [now apply NoDup_omit | exact E].
    - now rewrite lookup_spread_absent. }
  exists config.
  destruct (send_events h config st) as [evs [T E]]. exists evs.
  split; [exact T|].
  assert (F : requests evs = [] /\ csrf_calls evs = 0 /\ cookie_writes evs = []).
  { destruct E as [->|[_ [-> _]]]; now repeat split. }
  destruct F as [F1 [F2 F3]].
  split; [exact F1|]. split; [exact F2|]. split; [exact F3|].
  split; [apply send_cookie|]. split.
  - rewrite L. unfold handed_on. cbn. now destruct (lookup "url" options).
  - intros k Hk. rewrite L. destruct (handed_on ["pageName"] options k);
      [reflexivity|]. cbn. now destruct (String.eqb_spec k "url").
Qed.

Lemma getPage_request_witness :
  let options := [("pageName", VStr "stats"); ("method", VStr "POST");
                  ("data", VObj [("from", VNum 1)])] in
  exists config evs,
    trace (snd (getPage Examples.browser options (start None)))
    = Request config :: evs
    /\ csrf_calls evs = 0
    /\ lookup "url" config = Some (VStr "/api/pages/stats")
    /\ lookup "method" config = Some (VStr "POST").
Proof.
  intros options.
  assert (Hnd : NoDup (map fst options)).
  { repeat constructor; simpl; intuition discriminate. }
  destruct (getPage_request Examples.browser options (start None) Hnd)
    as [config [evs [T [_ [C [_ [_ [U K]]]]]]]].
  exists config, evs. split; [exact T|]. split; [exact C|].
  split; [exact U|]. apply K. discriminate.
Defined.

(* ================================================================== *)
(** ** More on searching and on bulk actions *)

(** X17: the request of [searchRecords] carries the search property as the
    query parameter [searchProperty] exactly when one is given; it never has
    a body, and never headers, so no token. *)
Theorem searchRecords_params (h : Host)
  (resourceId query searchProperty : value) (c : option string) :
  isOnServer h = false ->
  forall config,
    In config (issued (searchRecords h resourceId query searchProperty
                         (start c))) ->
    lookup "params" config
    = (if truthy searchProperty
       then Some (VObj [("searchProperty", searchProperty)])
       else None)
    /\ lookup "data" config = Some VUndefined
    /\ lookup "headers" config = None.
Proof.
  intros Hs config Hin. rewrite searchRecords_issued in Hin by assumption.
  destruct Hin as [<-|[]]. unfold search_options.
  destruct (truthy searchProperty); repeat split.
Qed.

Lemma searchRecords_params_witness :
  exists config,
    issued (searchRecords Examples.browser (VStr "Comments") (VStr "hello")
              (VStr "title") (start (Some ""))) = [config]
    /\ lookup "params" config
       = Some (VObj [("searchProperty", VStr "title")]).
Proof.
  eexists. split; [reflexivity|].
  destruct (searchRecords_params Examples.browser (VStr "Comments")
              (VStr "hello") (VStr "title") (Some "") eq_refl _
              (or_introl eq_refl)) as [H _].
  exact H.
Defined.

(** X18: the query of a resource action adds one path segment and no more:
    the segment holds no slash, question mark, hash, ampersand, equals sign,
    semicolon, comma or space, whatever the query is. *)
Theorem resourceAction_query_segment (h : Host) (options : obj)
  (c : option string) :
  lookup "url" options = None ->
  truthy (get options "query") = true ->
  forall config,
    In config (issued (resourceAction h options (start c))) ->
    exists segment,
      get config "url"
      = VStr (("/api/resources/" ++ to_string (get options "resourceId")
               ++ "/actions/" ++ to_string (get options "actionName"))
              ++ "/" ++ segment)
      /\ forall x, delimiter x = true -> has_char x segment = false.
Proof.
  intros Hu Hq config Hin. unfold issued in Hin.
  rewrite resourceAction_requests in Hin.
  destruct (params_for _ _ _ _) as [ap|] eqn:P; [|contradiction].
  destruct Hin as [<-|[]].
  exists (encodeURIComponent (to_string (get options "query"))). split.
  - unfold get at 1. rewrite literal_own; [| |discriminate].
    + unfold resource_url. now rewrite Hq.
    + rewrite (params_for_lookup _ _ _ _ _ _ P) by discriminate.
      now rewrite lookup_omit.
  - intros x Hx. now apply encoded_clean.
Qed.

Lemma resourceAction_query_segment_witness :
  let options := [("resourceId", VStr "Comments"); ("actionName", VStr "search");
                  ("query", VStr "../../pages/x?y=1#z")] in
  exists config segment,
    issued (resourceAction Examples.browser options (start (Some "")))
    = [config]
    /\ get config "url"
       = VStr ("/api/resources/Comments/actions/search/" ++ segment)
    /\ has_char "/" segment = false.
Proof.
  intros options. eexists.
  destruct (resourceAction_query_segment Examples.browser options (Some "")
              eq_refl eq_refl _ (or_introl eq_refl)) as [segment [H1 H2]].
  exists segment. split; [reflexivity|]. split; [exact H1|].
  apply H2. reflexivity.
Defined.

(** X19: a bulk action whose [recordIds] is missing or falsy sends the
    parameter [recordIds] as the empty string; one whose [recordIds] is truthy
    but no array sends nothing and rejects. *)
Theorem bulkAction_recordIds_edges (h : Host) (options : obj)
  (c : option string) :
  (truthy (get options "recordIds") = false ->
   forall config,
     In config (issued (bulkAction h options (start c))) ->
     get config "params" = VParams [("recordIds", "")])
  /\ (truthy (get options "recordIds") = true ->
      (forall xs, get options "recordIds" <> VArr xs) ->
      issued (bulkAction h options (start c)) = []
      /\ exists e, fst (bulkAction h options (start c)) = Throw e).
Proof.
  split.
  - intros Hf config Hin. unfold issued in Hin.
    rewrite bulkAction_requests in Hin. unfold joined_ids in Hin.
    rewrite Hf in Hin. cbn in Hin.
    destruct (params_for _ _ _ _) as [ap|]; [|contradiction].
    destruct Hin as [<-|[]]. apply get_obj_set_same.
  - intros Ht Hna.
    assert (J : joined_ids (get options "recordIds") = None).
    { unfold joined_ids. rewrite Ht.
      destruct (get options "recordIds"); try reflexivity.
      now destruct (Hna xs). }
    assert (I : issued (bulkAction h options (start c)) = []).
    { unfold issued. rewrite bulkAction_requests, J.
      now destruct (params_for _ _ _ _). }
    split; [exact I|].
    destruct (action_run h options c bulkAction
                (or_intror (or_intror (or_introl eq_refl))))
      as [st1 [B [[e E]|[config E]]]].
    + exists e. now rewrite E.
    + rewrite E, (issued_send h c config st1 B) in I. discriminate.
Qed.

Lemma bulkAction_recordIds_edges_witness :
  (exists config,
      issued (bulkAction Examples.browser
                [("resourceId", VStr "Comments"); ("actionName", VStr "list")]
                (start (Some ""))) = [config]
      /\ get config "params" = VParams [("recordIds", "")])
  /\ issued (bulkAction Examples.browser
               [("resourceId", VStr "Comments"); ("recordIds", VStr "1,2");
                ("actionName", VStr "list")]
               (start (Some ""))) = [].
Proof.
  split.
  - eexists. split; [reflexivity|].
    destruct (bulkAction_recordIds_edges Examples.browser
                [("resourceId", VStr "Comments"); ("actionName", VStr "list")]
                (Some "")) as [H _].
    exact (H eq_refl _ (or_introl eq_refl)).
  - destruct (bulkAction_recordIds_edges Examples.browser
                [("resourceId", VStr "Comments"); ("recordIds", VStr "1,2");
                 ("actionName", VStr "list")]
                (Some "")) as [_ H].
    refine (proj1 (H eq_refl _)). intros xs. discriminate.
Defined.

(* ================================================================== *)
(** ** The attributes of a cookie *)

Lemma lookup_some_in (k : string) (o : obj) :
  lookup k o <> None -> In k (map fst o).
Proof.
  intros H. destruct (in_dec string_dec k (map fst o)) as [I|I]; [exact I|].
  now apply lookup_none_iff in I.
Qed.

Lemma keys_obj_set (k x : string) (v : value) (o : obj) :
  In x (map fst (obj_set k v o)) <-> x = k \/ In x (map fst o).
Proof.
  unfold obj_set. destruct (lookup k o) eqn:E.
  - rewrite keys_replace. split; [now right|]. intros [->|I]; [|exact I].
    apply lookup_some_in. congruence.
  - destruct (array_index k).
    + apply keys_insert_index.
    + rewrite map_app, in_app_iff. cbn. intuition congruence.
Qed.

Lemma keys_fold (x : string) (src target : obj) :
  In x (map fst (fold_left (fun o kv => obj_set (fst kv) (snd kv) o)
                   src target))
  <-> In x (map fst src) \/ In x (map fst target).
Proof.
  revert target. induction src as [|[k v] r IH]; intros target; cbn.
  - tauto.
  - rewrite IH, keys_obj_set. intuition congruence.
Qed.

Lemma NoDup_fold (src target : obj) :
  NoDup (map fst target) ->
  NoDup (map fst (fold_left (fun o kv => obj_set (fst kv) (snd kv) o)
                    src target)).
Proof.
  revert target. induction src as [|[k v] r IH]; intros target H; cbn;
    [exact H|]. apply IH. now apply NoDup_obj_set.
Qed.

(** X20: [setCookie] writes one attribute for [path] and one for each option
    name of the caller, and none of them twice, also when the caller passes a
    [path] or an [expires] of its own. *)
Theorem setCookie_attribute_names (h : Host) (name : string)
  (val options : value) (c : string) :
  exists attributes,
    setCookie h name val options (start (Some c))
    = (Normal tt,
       mkStore
         (Some (cookie_assigned h c
                  (fold_left cookie_attribute attributes
                     (encodeURIComponent name ++ "="
                      ++ encodeURIComponent (to_string val)))))
         [CookieWrite
            (fold_left cookie_attribute attributes
               (encodeURIComponent name ++ "="
                ++ encodeURIComponent (to_string val)))])
    /\ NoDup (map fst attributes)
    /\ forall k, In k (map fst attributes)
                 <-> k = "path" \/ In k (map fst (own_props options)).
Proof.
  exists (cookie_options options). split; [reflexivity|].
  unfold cookie_options.
  set (given := match options with VUndefined => VObj [] | _ => options end).
  assert (Hgiven : own_props given = own_props options)
    by apply own_props_default.
  set (merged := spread given (obj_set "path" (VStr "/") [])).
  assert (Hnd : NoDup (map fst merged)).
  { apply NoDup_fold. cbn. constructor; [tauto | constructor]. }
  assert (Hk : forall k, In k (map fst merged)
                         <-> k = "path" \/ In k (map fst (own_props options))).
  { intros k. unfold merged, spread. rewrite keys_fold, Hgiven. cbn.
    intuition congruence. }
  destruct (get merged "expires") eqn:E; try (split; assumption).
  split; [now apply NoDup_obj_set|].
  intros k. rewrite keys_obj_set, <- Hk. split; [|tauto].
  intros [->|I]; [|exact I]. apply lookup_some_in.
  unfold get in E. destruct (lookup "expires" merged); [discriminate|discriminate].
Qed.

(* ================================================================== *)
(** ** A token that is already in the cookie *)

(** X21: while the cookie [sk] holds a token, no action asks the token
    endpoint or assigns [document.cookie], and every request of a call that
    needs a token carries the token of the cookie. *)
Theorem cached_token_is_sent (h : Host) (options : obj) (c : string)
  (token : value) :
  NoDup (map fst options) ->
  cookie_value "sk" c = Normal token ->
  truthy token = true ->
  (forall act,
      In act actions ->
      csrf_calls (trace (snd (act h options (start (Some c))))) = 0
      /\ cookie_writes (trace (snd (act h options (start (Some c))))) = [])
  /\ (forall config headers,
         (truthy (get options "data") = true
          /\ (In config (issued (resourceAction h options (start (Some c))))
              \/ In config (issued (recordAction h options (start (Some c))))))
         \/ (truthy (get options "method") || truthy (get options "data") = true
             /\ In config (issued (bulkAction h options (start (Some c))))) ->
         lookup "headers" config = Some (VObj headers) ->
         lookup "X-Csrf-Token" headers = Some token).
Proof.
  intros Hnd Hv Ht.
  pose proof (getToken_cached_at h (start (Some c)) c token eq_refl Hv Ht) as G.
  split.
  - intros act Ha.
    destruct (action_run h options (Some c) act Ha)
      as [st1 [B [[e E]|[config E]]]]; rewrite E.
    + cbn [snd]. destruct B as [->| ->]; [now split|]. rewrite G. now split.
    + destruct (only_send is_send_event h config (fun e H => H) st1)
        as [evs [-> P]].
      destruct (send_events_facts evs P) as [Hc Hw].
      rewrite csrf_calls_app, cookie_writes_app, Hc, Hw.
      destruct B as [->| ->]; [now split|]. rewrite G. now split.
  - intros config headers Hin Hh.
    destruct (gated_requests_carry_token h options (Some c) Hnd)
      as [H1 [H2 H3]].
    assert (K : carries_token h (Some c) config).
    { destruct Hin as [[Hd [I|I]]|[Hg I]]; auto. }
    destruct K as [tok [st [hs [K1 [K2 K3]]]]].
    rewrite G in K1. injection K1 as <- _.
    rewrite Hh in K2. now injection K2 as ->.
Qed.

Lemma cached_token_is_sent_witness :
  exists config,
    issued (resourceAction Examples.browser Examples.new_comment
              (start (Some "theme=dark; sk=tok%20en"))) = [config]
    /\ get config "headers" = VObj [("X-Csrf-Token", VStr "tok en")]
    /\ csrf_calls (trace (snd (resourceAction Examples.browser
                                 Examples.new_comment
                                 (start (Some "theme=dark; sk=tok%20en"))))) = 0.
Proof.
  eexists. split; [reflexivity|]. split; [reflexivity|].
  assert (Hnd : NoDup (map fst Examples.new_comment)).
  { repeat constructor; simpl; intuition discriminate. }
  destruct (cached_token_is_sent Examples.browser Examples.new_comment
              "theme=dark; sk=tok%20en" (VStr "tok en") Hnd eq_refl eq_refl)
    as [H _].
  exact (proj1 (H resourceAction (or_introl eq_refl))).
Defined.

(* ================================================================== *)
(** ** A response without records *)

(** X22: when the body of the response has no [records], [searchRecords]
    resolves to [undefined], not to the empty list; when the response has no
    body at all it rejects with a [TypeError]. *)
Theorem searchRecords_missing_records (h : Host)
  (resourceId query searchProperty : value) (c : option string) :
  isOnServer h = false ->
  exists config,
    issued (searchRecords h resourceId query searchProperty (start c))
    = [config]
    /\ forall response,
         request h config = Normal response ->
         (forall s, fst (checkResponse h response s) = Normal tt) ->
         nullish response = false ->
         let body := get (own_props response) "data" in
         (nullish body = true ->
          fst (searchRecords h resourceId query searchProperty (start c))
          = Throw (TypeError ("Cannot read properties of " ++ to_string body
                              ++ " (reading 'records')")))
         /\ (nullish body = false ->
             lookup "records" (own_props body) = None ->
             fst (searchRecords h resourceId query searchProperty (start c))
             = Normal VUndefined).
Proof.
  intros Hs. eexists. split; [now apply searchRecords_issued|].
  intros response Hr Hc N1 body.
  assert (Hd : get (search_options resourceId query searchProperty) "data"
               = VUndefined).
  { unfold search_options. now destruct (truthy searchProperty). }
  assert (E : exists st,
             searchRecords h resourceId query searchProperty (start c)
             = data_records response st).
  { rewrite searchRecords_browser by assumption.
    rewrite bind_run, resourceAction_ungated by now rewrite Hd.
    rewrite Hd.
    destruct (send_resolves h _ response (start c) Hr Hc) as [st1 ->].
    rewrite bind_run. specialize (Hc st1).
    destruct (checkResponse h response st1) as [[[]|e] st2]; cbn in Hc;
      [now exists st2 | discriminate]. }
  destruct E as [st ->]. unfold data_records. rewrite bind_run.
  rewrite (get_prop_defined _ _ N1). cbn [ret]. fold body. split.
  - intros N2. now rewrite (get_prop_nullish _ _ N2).
  - intros N2 Hl. rewrite (get_prop_defined _ _ N2). unfold get.
    now rewrite Hl.
Qed.

Lemma searchRecords_missing_records_witness :
  let h := mkHost false (VStr "http://localhost:3000")
             (VObj [("paths", VObj [("loginPath", VStr "/admin/login")])])
             (fun pattern s => Normal false)
             (fun jar assigned => until_semicolon assigned)
             (Normal Examples.token_response)
             (fun config =>
                Normal (VObj [("data", VObj [("error", VStr "no such resource")]);
                              ("request", VObj [])])) in
  fst (searchRecords h (VStr "Comments") (VStr "hello") VUndefined
         (start (Some "")))
  = Normal VUndefined.
Proof.
  intros h.
  destruct (searchRecords_missing_records h (VStr "Comments") (VStr "hello")
              VUndefined (Some "") eq_refl) as [config [_ H]].
  destruct (H (VObj [("data", VObj [("error", VStr "no such resource")]);
                     ("request", VObj [])])
              eq_refl (fun s => eq_refl) eq_refl) as [_ H2].
  exact (H2 eq_refl eq_refl).
Defined.
